(* ===== verification/_CoqProject ===== *)
-Q . S2P
Prelude.v
JsString.v
JsObject.v
Namespacing.v
QueryAssembler.v
ReferenceResolver.v
Libraries.v
Normalizer.v
