(* ===== verification/Prelude.v ===== *)
(** * parfit-loader: a verification library

    parfit-loader moves the members of a CiviCRM database into the
    Parfit PostgreSQL database in two stages.  [src/export/index.js] (its
    [run] and the [execute] function it calls) discovers the CiviCRM
    custom-field tables, assembles one SQL query over contacts and
    their custom tables, resolves state and country codes to labels,
    and normalises the rows, whose [dashboard_data] column holds a
    JSON ledger of donations, income and recurring donations, into
    the lists [contacts], [donations], [reportedIncome],
    [recurringDonations], [charities] and [donationCurrencyCodes].
    [src/import.js] then writes these lists with [INSERT ... ON
    CONFLICT] statements.  The export stages compose in the order
    discovery -> query -> resolution -> normalisation; each stage
    consumes the previous stage's value, and every failure is a thrown
    exception, modelled by the result type [res] of this file.

    ** Files and what they model

    - [Prelude] (this file): exceptions [exn] and the result type [res]
      with stdpp's monad notation, [res_mapM] and [res_foldM] for the
      [map]/[forEach] loops of the code, [push_unique] for the
      "push if not already included" idiom, the hint databases
      [parfit] and [parfit_rw] and the tactic [res_inv].
    - [JsString]: the JavaScript string built-ins the code relies on,
      from their ECMAScript definitions: [split] on a one-character
      separator ([js_split]), [join] ([js_join]), [replace] of the first
      occurrence ([js_replace_first]), [trim] ([js_trim]),
      [toLowerCase] ([js_to_lower]) and the global [isNaN] on a string
      ([js_isNaN_string], through the StringNumericLiteral grammar:
      empty and blank strings, [0x1f], [1e5], [Infinity] are numbers).
      The theorems give split/join round trips and the cases of
      [isNaN] the namespacing depends on.
    - [JsObject]: JavaScript values [jsval] and objects as ordered
      association lists ([dict]) with [dict_get], [dict_set] (in place
      or appended), [dict_delete] and [js_keys] (integer keys first,
      ascending, then insertion order), with [ToString], [ToNumber] on
      integers, truthiness and strict equality.
    - [Namespacing] (Module [Namespacing]): [fields], [customTableName],
      [customTableColumnNamespace] and [customTableFields] of
      src/export/index.js lines 442-560: how a custom column [t.c_7] becomes the
      output column [t__c].
    - [QueryAssembler] (Module [QueryAssembler]): the discovery queries
      and the schema object of [execute] (lines 161-187), and the main
      query text (lines 188-217) and [query] (lines 430-440).  The
      database is a function [source_db] from SQL text to rows or a
      [DbError].
    - [ReferenceResolver] (Module [ReferenceResolver]): the state and
      country lookups and the row rewrite of lines 218-251.
    - [Libraries]: the three libraries the normaliser calls, as type
      classes: [Json] ([JSON.parse]/[JSON.stringify]), [Md5] (a digest
      of 32 characters) and [Moment] (moment.utc: construction from a
      value, validity, [toISOString], [add], [subtract], [valueOf]),
      each with the laws the theorems use, and reference instances
      ([table_json], [md5_pad], [ms_clock]) on which the witnesses run.
    - [Normalizer] (Module [Normalizer]): lines 252-427 of [execute]:
      the accumulator record [acc] (the six output lists and the hash
      registry of line 262), [normalize_date], one step function per
      ledger kind ([donation_step], [income_step], [recurring_step]),
      [process_ledger], [normalize_contact] (the body of the
      per-contact [map]), [finish] (the sort of currency codes and the
      output object) and [normalize], all stated against the
      interfaces of [Libraries].

    ** What the theorems show

    - Normalizer: after a successful run the charity registry has no
      duplicate and covers every donation target (an invariant of
      every step, by [res_foldM_inv]); the fields of the record a
      donation entry produces, its timestamp [t*1000 + (counter+1)]
      included; a repeated hash aborts the run; JSON errors abort
      the whole run; donation hashes of different contacts differ; the
      timestamp scheme [t*1000 + k] is injective for ledgers of at most
      1000 entries (the bound is the code's: at 1001 entries the
      counter reaches the next second); and the behaviours of
      [normalize_date] and [income_step] that differ from the
      specification.
    - QueryAssembler: discovery refines the abstract schema (table ->
      column names, by position); the shape of the main query (line
      counts, join keys, LIMIT clause), and the invalid SQL produced
      whenever no custom table has a column besides [id].
    - Namespacing: totality of [customTableFields] (it never throws
      where it is used, so collisions go undetected) and the exact
      namespacing of numeric, word and empty suffixes.
    - ReferenceResolver: the functional behaviour of the lookups and of
      the row rewrite.

    Loops are structural recursion on the lists they traverse, so no
    fuel is needed; every definition is executable and the witnesses
    evaluate them by [vm_compute].

    ** Not modelled, and why

    - The export [run] (connection, clearing and writing the data
      directory, [JSON.stringify] of the output files) and the
      configuration loading are I/O around [execute].
    - [src/import.js], the writer: its upserts are left to a later
      stage of this development, which will model the destination tables
      as maps with [ON CONFLICT] semantics.
    - [src/knexfile.js] is static configuration.
    - Dates are abstract through [Moment]; the ISO rendering of instants
      is not fixed beyond the laws of that interface. *)

From Stdlib Require Export String Ascii ZArith Lia.
From stdpp Require Export base list strings.

(** ** Exceptions and the result type

    The JavaScript code signals every fatal condition by throwing: a
    [TypeError] raised by the engine when a property of [undefined] is
    read, an [Error] thrown by the code itself ([throw new Error(...)]),
    a [RangeError] ([throw new RangeError(...)] in import.js), a
    [SyntaxError] raised by [JSON.parse], and the rejection of a query by
    a database. A computation that may throw returns a [res]. *)

Inductive exn : Type :=
| TypeError (what : string)
| SyntaxError (what : string)
| Error (msg : string)
| RangeError (msg : string)
| DbError (msg : string).

Inductive res (A : Type) : Type :=
| Ok (a : A)
| Throw (e : exn).
Arguments Ok {A} a.
Arguments Throw {A} e.

#[export] Instance exn_eq_dec : EqDecision exn.
Proof. solve_decision. Defined.

#[export] Instance res_eq_dec {A} `{EqDecision A} : EqDecision (res A).
Proof. solve_decision. Defined.

Definition res_bind {A B} (c : res A) (k : A -> res B) : res B :=
  match c with
  | Ok a => k a
  | Throw e => Throw e
  end.

Definition res_map {A B} (f : A -> B) (c : res A) : res B :=
  res_bind c (fun a => Ok (f a)).

(** The monad instances make stdpp's notation [x ← c; k] available. *)
#[export] Instance res_mret : MRet res := @Ok.
#[export] Instance res_mbind : MBind res := fun A B k c => res_bind c k.

(** [mapM] over a list: the first element whose image throws aborts the
    whole traversal, as a [for] loop whose body throws does. *)
Fixpoint res_mapM {A B} (f : A -> res B) (l : list A) : res (list B) :=
  match l with
  | [] => Ok []
  | x :: l' => y ← f x; ys ← res_mapM f l'; Ok (y :: ys)
  end.

(** [foldM]: a sequential loop threading an accumulator that may throw. *)
Fixpoint res_foldM {A B} (f : B -> A -> res B) (acc : B) (l : list A) : res B :=
  match l with
  | [] => Ok acc
  | x :: l' => acc' ← f acc x; res_foldM f acc' l'
  end.

(** ** JavaScript's [arr.indexOf(x) === -1 ? arr.push(x)] idiom

    export/index.js keeps three run-wide registries (charity names,
    currency codes, donation hashes) with this idiom: an element is
    appended when it is not yet there. *)
Definition push_unique {A} `{EqDecision A} (x : A) (l : list A) : list A :=
  if decide (x ∈ l) then l else l ++ [x].

(** ** Automation *)

Create HintDb parfit discriminated.
Create Rewrite HintDb parfit_rw.

(** [res_step H] reduces the monadic glue of [H] and nothing else: a
    full [simpl] would also unfold the string and digest computations the
    continuation mentions. *)
Ltac res_step H := cbn [res_bind mbind res_mbind mret res_mret] in H.

(** [res_inv] takes apart a hypothesis [c ≫= k = Ok v]: it cases on
    the first computation, discards the error branch, splits the tuples
    the continuation matches on and substitutes the results. *)
Ltac res_inv :=
  repeat match goal with
         | H : Ok _ = Ok _ |- _ => injection H; clear H; intros; subst
         | H : Ok _ = Throw _ |- _ => discriminate H
         | H : Throw _ = Ok _ |- _ => discriminate H
         | H : res_bind ?c _ = Ok _ |- _ =>
             let E := fresh "E" in destruct c eqn:E; res_step H
         | H : mbind _ ?c = Ok _ |- _ =>
             let E := fresh "E" in destruct c eqn:E; res_step H
         | H : (match ?c with Ok _ => _ | Throw _ => _ end) = Ok _ |- _ =>
             let E := fresh "E" in destruct c eqn:E; res_step H
         | H : (if ?b then _ else _) = Ok _ |- _ =>
             let E := fresh "E" in destruct b eqn:E; res_step H
         | H : (match ?p with (_, _) => _ end) = Ok _ |- _ =>
             is_var p; destruct p; res_step H
         end.

(** [decide_closed] proves a decidable proposition about closed data
    (a membership, a [NoDup], a non-membership) by evaluating its
    decision procedure. *)
Ltac decide_closed := apply (bool_decide_unpack _); vm_compute; exact I.

(** ** Shared lemmas *)

Lemma res_bind_ok {A B} (c : res A) (k : A -> res B) b :
  res_bind c k = Ok b <-> exists a, c = Ok a /\ k a = Ok b.
Proof. destruct c; simpl; split; naive_solver. Qed.

Lemma res_bind_throw {A B} (c : res A) (k : A -> res B) e :
  c = Throw e -> res_bind c k = Throw e.
Proof. by intros ->. Qed.

Lemma res_mapM_length {A B} (f : A -> res B) l l' :
  res_mapM f l = Ok l' -> length l' = length l.
Proof.
  revert l'; induction l as [|x l IH]; intros l' H; simpl in H.
  - by injection H as <-.
  - apply res_bind_ok in H as (y & _ & H).
    apply res_bind_ok in H as (ys & Hys & H). injection H as <-.
    simpl. by rewrite (IH _ Hys).
Qed.

Lemma res_mapM_ok_total {A B} (f : A -> B) (l : list A) :
  res_mapM (fun x => Ok (f x)) l = Ok (map f l).
Proof. induction l as [|x l IH]; simpl; [done|by rewrite IH]. Qed.

Lemma push_unique_elem {A} `{EqDecision A} (x y : A) l :
  y ∈ push_unique x l <-> y = x \/ y ∈ l.
Proof.
  unfold push_unique. case_decide; rewrite ?elem_of_app, ?list_elem_of_singleton;
    naive_solver.
Qed.

Lemma push_unique_NoDup {A} `{EqDecision A} (x : A) l :
  NoDup l -> NoDup (push_unique x l).
Proof.
  intros Hl. unfold push_unique. case_decide; [done|].
  apply NoDup_app. split; [done|]. split; [|apply NoDup_singleton].
  intros y Hy Hy'. apply list_elem_of_singleton in Hy'. naive_solver.
Qed.

Lemma push_unique_prefix {A} `{EqDecision A} (x : A) l :
  l `prefix_of` push_unique x l.
Proof. unfold push_unique. case_decide; [done|]. by eexists. Qed.

#[export] Hint Resolve push_unique_NoDup push_unique_prefix : parfit.
#[export] Hint Rewrite @res_mapM_ok_total : parfit_rw.

Lemma res_mapM_total {A B} (f : A -> res B) (l : list A) :
  (forall x, x ∈ l -> exists y, f x = Ok y) -> exists ys, res_mapM f l = Ok ys.
Proof.
  induction l as [|x l IH]; intros Hf; simpl; [by eexists|].
  destruct (Hf x) as [y ->]; [by left|]. simpl.
  destruct IH as [ys ->]; [intros z Hz; apply Hf; by right|]. by eexists.
Qed.

Lemma res_mapM_Forall2 {A B} (f : A -> res B) l ys :
  res_mapM f l = Ok ys -> Forall2 (fun x y => f x = Ok y) l ys.
Proof.
  revert ys; induction l as [|x l IH]; intros ys H; simpl in H.
  - injection H as <-. constructor.
  - destruct (f x) as [y|] eqn:Ex; [|done]. simpl in H.
    destruct (res_mapM f l) as [ys'|] eqn:El; [|done]. injection H as <-.
    constructor; [done|]. by apply IH.
Qed.

Lemma res_mapM_elem {A B} (f : A -> res B) l ys y :
  res_mapM f l = Ok ys -> y ∈ ys -> exists x, x ∈ l /\ f x = Ok y.
Proof.
  intros H%res_mapM_Forall2 Hy. induction H as [|x y' l ys' Hxy _ IH].
  - by apply elem_of_nil in Hy.
  - apply elem_of_cons in Hy as [->|Hy].
    + exists x. split; [left|done].
    + destruct (IH Hy) as (x' & ? & ?). exists x'. split; [by right|done].
Qed.

Lemma app_ne_r {A} (l1 l2 : list A) : l2 <> [] -> l1 ++ l2 <> [].
Proof. intros H Hn. by apply app_eq_nil in Hn as [_ ?]. Qed.

Lemma last_app_ne {A} (l1 l2 : list A) : l2 <> [] -> last (l1 ++ l2) = last l2.
Proof.
  intros Hne. induction l1 as [|x l1 IH]; [done|].
  rewrite <- app_comm_cons. simpl. destruct (l1 ++ l2) eqn:E.
  - by apply app_eq_nil in E as [_ ->].
  - by rewrite <- IH.
Qed.

Lemma res_mapM_ok_map {A B} (f : A -> res B) (g : A -> B) (l : list A) :
  Forall (fun x => f x = Ok (g x)) l -> res_mapM f l = Ok (map g l).
Proof. induction 1 as [|x l Hx _ IH]; simpl; [done|]. by rewrite Hx, IH. Qed.

Lemma zip_with_map_r {A B C} (f : A -> B -> C) (g : A -> B) (l : list A) :
  zip_with f l (map g l) = map (fun x => f x (g x)) l.
Proof. induction l as [|x l IH]; simpl; [done|]. by rewrite IH. Qed.

Lemma res_mapM_elem_l {A B} (f : A -> res B) l ys x :
  res_mapM f l = Ok ys -> x ∈ l -> exists y, y ∈ ys /\ f x = Ok y.
Proof.
  intros H%res_mapM_Forall2 Hx. induction H as [|x' y l ys Hxy _ IH].
  - by apply elem_of_nil in Hx.
  - apply elem_of_cons in Hx as [->|Hx].
    + exists y. split; [left|done].
    + destruct (IH Hx) as (y' & ? & ?). exists y'. split; [by right|done].
Qed.

(** An invariant of the accumulator of a [res_foldM] loop that every
    successful step preserves holds of its result. *)
Lemma res_foldM_inv {A B} (P : B -> Prop) (f : B -> A -> res B) (acc : B) (l : list A) r :
  (forall b x b', P b -> f b x = Ok b' -> P b') ->
  P acc -> res_foldM f acc l = Ok r -> P r.
Proof.
  intros Hstep. revert acc. induction l as [|x l IH]; intros acc Hacc Hr; simpl in Hr.
  - by injection Hr as <-.
  - destruct (f acc x) as [b|] eqn:E; simpl in Hr; [|discriminate].
    apply (IH b); [by eapply Hstep|done].
Qed.

Lemma res_foldM_app {A B} (f : B -> A -> res B) acc l1 l2 :
  res_foldM f acc (l1 ++ l2) = (b ← res_foldM f acc l1; res_foldM f b l2).
Proof.
  revert acc. induction l1 as [|x l1 IH]; intros acc; simpl; [done|].
  destruct (f acc x); simpl; [apply IH|done].
Qed.
