(* ===== verification/JsString.v ===== *)
(** * JavaScript string primitives used by export/index.js

    JavaScript strings are sequences of UTF-16 code units; the model uses
    Stdlib [string], a sequence of 8-bit characters read as the code
    points U+0000..U+00FF. Table and column names of the source schema
    are ASCII, so nothing is lost on the data the code manipulates.

    This file models [String.prototype.split] with a one-character
    separator, [Array.prototype.join], [String.prototype.replace] with a
    string pattern and a [$]-free replacement, [String.prototype.trim],
    [String.prototype.toLowerCase] on this alphabet and the global
    [isNaN] applied to a string, whose meaning is the grammar
    StringNumericLiteral of ECMA-262 (section ToNumber applied to the
    String type). *)
From S2P Require Import Prelude.

Local Open Scope string_scope.

(** ** [s.split(c)] *)
Fixpoint js_split (c : ascii) (s : string) : list string :=
  match s with
  | EmptyString => [""]
  | String a s' =>
      let parts := js_split c s' in
      if Ascii.eqb a c then "" :: parts
      else match parts with
           | p :: ps => String a p :: ps
           | [] => [String a ""]
           end
  end.

(** ** [arr.join(sep)] *)
Fixpoint js_join (sep : string) (l : list string) : string :=
  match l with
  | [] => ""
  | [x] => x
  | x :: l' => x ++ sep ++ js_join sep l'
  end.

(** ** [s.replace(pat, rep)] with a string pattern: only the first
    occurrence is replaced; an empty pattern matches at index 0. *)
Fixpoint str_drop (n : nat) (s : string) : string :=
  match n, s with
  | 0, _ => s
  | S n', String _ s' => str_drop n' s'
  | S _, EmptyString => EmptyString
  end.

Fixpoint js_replace_first (pat rep s : string) : string :=
  if String.prefix pat s then rep ++ str_drop (String.length pat) s
  else match s with
       | EmptyString => EmptyString
       | String a s' => String a (js_replace_first pat rep s')
       end.

(** ** [s.trim()]: WhiteSpace and LineTerminator code points of the
    alphabet (TAB, LF, VT, FF, CR, SPACE, NO-BREAK SPACE). *)
Definition js_is_space (a : ascii) : bool :=
  bool_decide (nat_of_ascii a ∈ [9; 10; 11; 12; 13; 32; 160]).

Fixpoint trim_start (s : string) : string :=
  match s with
  | EmptyString => EmptyString
  | String a s' => if js_is_space a then trim_start s' else s
  end.

Fixpoint trim_end (s : string) : string :=
  match s with
  | EmptyString => EmptyString
  | String a s' =>
      let r := trim_end s' in
      if String.eqb r "" && js_is_space a then "" else String a r
  end.

Definition js_trim (s : string) : string := trim_end (trim_start s).

(** ** [s.toLowerCase()] on the alphabet's ASCII letters *)
Definition ascii_lower (a : ascii) : ascii :=
  let n := nat_of_ascii a in
  if Nat.leb 65 n && Nat.leb n 90 then ascii_of_nat (n + 32) else a.

Fixpoint js_to_lower (s : string) : string :=
  match s with
  | EmptyString => EmptyString
  | String a s' => String (ascii_lower a) (js_to_lower s')
  end.

(** ** [isNaN(s)] for a string [s]

    [isNaN] converts its argument with ToNumber. On a string, ToNumber
    yields NaN exactly when the string, stripped of surrounding white
    space, is neither empty nor a StringNumericLiteral:
    - a decimal literal with an optional sign: [Infinity], or digits with
      an optional fraction, or a fraction alone, each with an optional
      exponent [e]/[E] and a signed integer;
    - an unsigned [0x]/[0X], [0o]/[0O] or [0b]/[0B] integer. *)
Definition in_range (lo hi : nat) (a : ascii) : bool :=
  Nat.leb lo (nat_of_ascii a) && Nat.leb (nat_of_ascii a) hi.

Definition is_dec_digit : ascii -> bool := in_range 48 57.
Definition is_oct_digit : ascii -> bool := in_range 48 55.
Definition is_bin_digit : ascii -> bool := in_range 48 49.
Definition is_hex_digit (a : ascii) : bool :=
  is_dec_digit a || in_range 65 70 a || in_range 97 102 a.
Definition is_lower (a : ascii) : bool := in_range 97 122 a.

Definition digits1 (p : ascii -> bool) (l : list ascii) : bool :=
  negb (bool_decide (l = [])) && forallb p l.

(** [break_at p l] splits [l] before its first element satisfying [p]
    and drops that element. *)
Fixpoint break_at (p : ascii -> bool) (l : list ascii)
  : list ascii * option (list ascii) :=
  match l with
  | [] => ([], None)
  | a :: l' =>
      if p a then ([], Some l')
      else let '(u, v) := break_at p l' in (a :: u, v)
  end.

Definition is_sign (a : ascii) : bool := Ascii.eqb a "+" || Ascii.eqb a "-".

Definition signed_int (l : list ascii) : bool :=
  match l with
  | a :: d => if is_sign a then digits1 is_dec_digit d else digits1 is_dec_digit l
  | [] => false
  end.

Definition mantissa_ok (m : list ascii) : bool :=
  match break_at (fun a => Ascii.eqb a ".") m with
  | (ip, None) => digits1 is_dec_digit ip
  | (ip, Some fp) =>
      (digits1 is_dec_digit ip && (bool_decide (fp = []) || digits1 is_dec_digit fp))
      || (bool_decide (ip = []) && digits1 is_dec_digit fp)
  end.

Definition is_exp_mark (a : ascii) : bool := Ascii.eqb a "e" || Ascii.eqb a "E".

Definition unsigned_decimal (l : list ascii) : bool :=
  bool_decide (l = list_ascii_of_string "Infinity")
  || match break_at is_exp_mark l with
     | (m, None) => mantissa_ok m
     | (m, Some e) => mantissa_ok m && signed_int e
     end.

Definition decimal_literal (l : list ascii) : bool :=
  match l with
  | a :: r => if is_sign a then unsigned_decimal r else unsigned_decimal l
  | [] => false
  end.

Definition non_decimal_literal (l : list ascii) : bool :=
  match l with
  | z :: x :: h =>
      Ascii.eqb z "0" &&
      ((bool_decide (x ∈ ["x"; "X"]%char) && digits1 is_hex_digit h)
       || (bool_decide (x ∈ ["o"; "O"]%char) && digits1 is_oct_digit h)
       || (bool_decide (x ∈ ["b"; "B"]%char) && digits1 is_bin_digit h))
  | _ => false
  end.

Definition str_numeric (s : string) : bool :=
  let b := list_ascii_of_string (js_trim s) in
  bool_decide (b = []) || decimal_literal b || non_decimal_literal b.

Definition js_isNaN_string (s : string) : bool := negb (str_numeric s).

(** ** Lemmas *)

(** stdpp declares [String.append] [simpl never]; its two defining
    equations are used by rewriting instead. *)
Lemma str_app_nil_l (s : string) : "" ++ s = s.
Proof. reflexivity. Qed.

Lemma str_app_cons a (s t : string) : String a s ++ t = String a (s ++ t).
Proof. reflexivity. Qed.

Lemma str_app_nil_r (s : string) : s ++ "" = s.
Proof. induction s; rewrite ?str_app_nil_l, ?str_app_cons; congruence. Qed.

Lemma str_app_assoc (s1 s2 s3 : string) : s1 ++ (s2 ++ s3) = (s1 ++ s2) ++ s3.
Proof. induction s1; rewrite ?str_app_nil_l, ?str_app_cons; congruence. Qed.

Lemma list_ascii_of_string_app (s1 s2 : string) :
  list_ascii_of_string (s1 ++ s2) = (list_ascii_of_string s1 ++ list_ascii_of_string s2)%list.
Proof. induction s1; rewrite ?str_app_nil_l, ?str_app_cons; simpl; congruence. Qed.

#[export] Hint Rewrite str_app_nil_l str_app_cons str_app_nil_r list_ascii_of_string_app
  : parfit_rw.

Definition str_has (c : ascii) (s : string) : bool :=
  existsb (Ascii.eqb c) (list_ascii_of_string s).

Lemma js_split_nonempty c s : js_split c s <> [].
Proof.
  induction s as [|a s IH]; simpl; [done|].
  destruct (Ascii.eqb a c); [done|]. by destruct (js_split c s).
Qed.

Lemma js_join_cons sep x l :
  l <> [] -> js_join sep (x :: l) = x ++ sep ++ js_join sep l.
Proof. by destruct l. Qed.

Lemma js_join_cons_char sep a p ps :
  js_join sep (String a p :: ps) = String a (js_join sep (p :: ps)).
Proof. by destruct ps. Qed.

(** Joining the pieces of a split with the separator gives the string
    back. *)
Lemma js_join_split c s : js_join (String c "") (js_split c s) = s.
Proof.
  induction s as [|a s IH]; simpl; [done|].
  pose proof (js_split_nonempty c s) as Hne.
  destruct (Ascii.eqb_spec a c) as [->|_].
  - rewrite js_join_cons by done. rewrite str_app_nil_l, str_app_cons. by rewrite IH.
  - destruct (js_split c s) as [|p ps]; [done|].
    by rewrite js_join_cons_char, IH.
Qed.

Lemma js_split_sep c s : js_split c (String c s) = "" :: js_split c s.
Proof. simpl. by rewrite Ascii.eqb_refl. Qed.

Lemma js_split_cons_free c a s :
  Ascii.eqb a c = false ->
  js_split c (String a s) =
  match js_split c s with p :: ps => String a p :: ps | [] => [] end.
Proof.
  intros Ha. simpl. rewrite Ha.
  destruct (js_split c s) eqn:E; [by destruct (js_split_nonempty c s)|done].
Qed.

Lemma js_split_app_free c x s :
  str_has c x = false ->
  js_split c (x ++ s) =
  match js_split c s with p :: ps => (x ++ p) :: ps | [] => [] end.
Proof.
  induction x as [|a x IH]; intros Hx; rewrite ?str_app_nil_l, ?str_app_cons; simpl.
  - destruct (js_split c s) eqn:E; [by destruct (js_split_nonempty c s)|done].
  - unfold str_has in Hx. simpl in Hx. apply orb_false_iff in Hx as [Ha Hx].
    rewrite Ascii.eqb_sym in Ha. rewrite Ha, IH by done.
    destruct (js_split c s) eqn:E; [by destruct (js_split_nonempty c s)|done].
Qed.

(** Splitting a join of separator-free pieces gives the pieces back. *)
Lemma js_split_join c l :
  l <> [] -> Forall (fun x => str_has c x = false) l ->
  js_split c (js_join (String c "") l) = l.
Proof.
  induction l as [|x [|y l] IH]; intros Hne Hl; [done| |].
  - inversion Hl; subst. simpl. rewrite <- (str_app_nil_r x) at 1.
    rewrite js_split_app_free by done. simpl. by rewrite str_app_nil_r.
  - inversion Hl as [|? ? Hx Hl']; subst. rewrite js_join_cons by done.
    rewrite js_split_app_free by done.
    rewrite str_app_cons, str_app_nil_l, js_split_sep, IH by done.
    by rewrite str_app_nil_r.
Qed.


Lemma str_prefix_app pat t : String.prefix pat (pat ++ t) = true.
Proof.
  induction pat as [|a pat IH]; [by destruct t|].
  rewrite str_app_cons. simpl. by destruct (ascii_dec a a).
Qed.

Lemma str_drop_app pat t : str_drop (String.length pat) (pat ++ t) = t.
Proof. induction pat as [|a pat IH]; [done|]. by rewrite str_app_cons. Qed.

Lemma js_replace_first_eq pat rep s :
  js_replace_first pat rep s =
  if String.prefix pat s then rep ++ str_drop (String.length pat) s
  else match s with
       | EmptyString => EmptyString
       | String a s' => String a (js_replace_first pat rep s')
       end.
Proof. by destruct s. Qed.

Lemma js_replace_first_prefix pat rep s :
  js_replace_first pat rep (pat ++ s) = rep ++ s.
Proof.
  rewrite js_replace_first_eq, str_prefix_app. f_equal. apply str_drop_app.
Qed.

(** *** Character facts, decided over the 256 characters *)
Ltac ascii_cases a :=
  let H := fresh in
  destruct a as [[] [] [] [] [] [] [] []]; intros H; vm_compute in H;
  first [ discriminate H
        | repeat split; first [ reflexivity | intros ?Hc; discriminate Hc ] ].

Lemma dec_digit_facts a :
  is_dec_digit a = true ->
  js_is_space a = false /\ is_exp_mark a = false /\ Ascii.eqb a "." = false
  /\ is_sign a = false.
Proof. ascii_cases a. Qed.

Lemma lower_facts a :
  is_lower a = true ->
  js_is_space a = false /\ is_dec_digit a = false /\ Ascii.eqb a "." = false
  /\ is_sign a = false /\ Ascii.eqb a "0" = false /\ a <> "I"%char
  /\ Ascii.eqb "_" a = false /\ Ascii.eqb "." a = false.
Proof. ascii_cases a. Qed.

(** *** Trimming a string without white space *)
Lemma trim_start_head a s : js_is_space a = false -> trim_start (String a s) = String a s.
Proof. intros H. simpl. by rewrite H. Qed.

Lemma trim_end_head a s : js_is_space a = false -> trim_end (String a s) = String a (trim_end s).
Proof. intros H. simpl. by rewrite H, andb_false_r. Qed.

Lemma js_trim_nospace s :
  forallb (fun a => negb (js_is_space a)) (list_ascii_of_string s) = true -> js_trim s = s.
Proof.
  unfold js_trim. intros H. destruct s as [|a s]; [done|].
  simpl in H. apply andb_true_iff in H as [Ha H]. apply negb_true_iff in Ha.
  rewrite trim_start_head by done. rewrite trim_end_head by done. f_equal.
  clear Ha a. induction s as [|a s IH]; [done|].
  simpl in H. apply andb_true_iff in H as [Ha H]. apply negb_true_iff in Ha.
  rewrite trim_end_head by done. by rewrite IH.
Qed.

Lemma break_at_none p l : forallb (fun a => negb (p a)) l = true -> break_at p l = (l, None).
Proof.
  induction l as [|a l IH]; intros H; [done|].
  simpl in H. apply andb_true_iff in H as [Ha H]. apply negb_true_iff in Ha.
  simpl. by rewrite Ha, IH.
Qed.

Lemma digits1_cons p a l : digits1 p (a :: l) = p a && forallb p l.
Proof. unfold digits1. by rewrite bool_decide_eq_false_2. Qed.

Lemma mantissa_ok_bad_head a u :
  Ascii.eqb a "." = false -> is_dec_digit a = false -> mantissa_ok (a :: u) = false.
Proof.
  intros Hdot Hdig. unfold mantissa_ok. simpl. rewrite Hdot.
  destruct (break_at _ u) as [ip [fp|]]; simpl; rewrite digits1_cons, Hdig; done.
Qed.

(** A token that starts with a lower-case letter is not a number. *)
Lemma non_decimal_literal_head a l :
  Ascii.eqb a "0" = false -> non_decimal_literal (a :: l) = false.
Proof. intros H. destruct l; simpl; by rewrite ?H. Qed.

Lemma js_isNaN_lower_start a t :
  is_lower a = true -> js_isNaN_string (String a t) = true.
Proof.
  intros Hl. destruct (lower_facts a Hl) as (Hsp & Hdig & Hdot & Hsg & H0 & HI & _).
  unfold js_isNaN_string, str_numeric, js_trim.
  rewrite trim_start_head, trim_end_head by done. cbn [list_ascii_of_string].
  rewrite non_decimal_literal_head, bool_decide_eq_false_2 by done.
  unfold decimal_literal. rewrite Hsg. unfold unsigned_decimal.
  rewrite bool_decide_eq_false_2 by (intros [=]; congruence). cbn [break_at].
  destruct (is_exp_mark a); [done|].
  destruct (break_at _ _) as [m e]. rewrite mantissa_ok_bad_head by done.
  by destruct e.
Qed.

(** A non-empty run of decimal digits is a number. *)
Lemma js_isNaN_digits t :
  digits1 is_dec_digit (list_ascii_of_string t) = true -> js_isNaN_string t = false.
Proof.
  intros H. unfold digits1 in H. apply andb_true_iff in H as [Hne Hall].
  assert (Hf : forall q, (forall a, is_dec_digit a = true -> q a = false) ->
            forallb (fun a => negb (q a)) (list_ascii_of_string t) = true).
  { intros q Hq. apply forallb_forall. intros a Ha.
    apply forallb_forall with (x := a) in Hall; [|done]. by rewrite Hq. }
  unfold js_isNaN_string, str_numeric.
  rewrite js_trim_nospace by (apply Hf; intros a Ha; apply (dec_digit_facts a Ha)).
  destruct (list_ascii_of_string t) as [|a l] eqn:E; [done|].
  simpl in Hall. apply andb_true_iff in Hall as [Ha Hl].
  destruct (dec_digit_facts a Ha) as (_ & Hexp & Hdot & Hsg).
  simpl. rewrite Hsg. unfold unsigned_decimal.
  rewrite (break_at_none is_exp_mark) by (apply Hf; intros b Hb; apply (dec_digit_facts b Hb)).
  unfold mantissa_ok.
  rewrite break_at_none by (apply Hf; intros b Hb; apply (dec_digit_facts b Hb)).
  unfold digits1. simpl. rewrite Ha, Hl. by rewrite !orb_true_r.
Qed.

Lemma js_split_free c y : str_has c y = false -> js_split c y = [y].
Proof.
  intros H. rewrite <- (str_app_nil_r y). rewrite js_split_app_free by done.
  simpl. done.
Qed.

(** Splitting at a separator occurrence splits both sides. *)
Lemma js_split_app_sep c x y :
  js_split c (x ++ String c y) = (js_split c x ++ js_split c y)%list.
Proof.
  induction x as [|a x IH].
  - by rewrite str_app_nil_l, js_split_sep.
  - rewrite str_app_cons. simpl. rewrite IH.
    pose proof (js_split_nonempty c x) as Hne.
    destruct (Ascii.eqb a c); [done|]. by destruct (js_split c x).
Qed.

Lemma js_join_snoc sep l x :
  l <> [] -> js_join sep (l ++ [x])%list = js_join sep l ++ sep ++ x.
Proof.
  induction l as [|y l IH]; intros Hne; [done|].
  destruct l as [|z l]; [reflexivity|].
  rewrite <- app_comm_cons, js_join_cons by (by destruct l).
  rewrite IH by done. change (js_join sep (y :: z :: l)) with (y ++ sep ++ js_join sep (z :: l)).
  by rewrite !str_app_assoc.
Qed.

Lemma str_has_app c x y : str_has c (x ++ y) = str_has c x || str_has c y.
Proof. unfold str_has. by rewrite list_ascii_of_string_app, existsb_app. Qed.

Lemma str_has_cons c a x : str_has c (String a x) = Ascii.eqb c a || str_has c x.
Proof. reflexivity. Qed.

#[export] Hint Rewrite str_has_app str_has_cons : parfit_rw.

Lemma digits_not_has a n :
  digits1 is_dec_digit (list_ascii_of_string n) = true -> is_dec_digit a = false ->
  str_has a n = false.
Proof.
  intros Hn Ha. unfold digits1 in Hn. apply andb_true_iff in Hn as [_ Hn].
  unfold str_has. apply not_true_iff_false. intros Hex.
  apply existsb_exists in Hex as (b & Hb & Hab).
  apply Ascii.eqb_eq in Hab as <-. apply forallb_forall with (x := a) in Hn; [|done].
  congruence.
Qed.

Lemma length_list_ascii_of_string (s : string) :
  length (list_ascii_of_string s) = String.length s.
Proof. induction s; simpl; congruence. Qed.

(** Two concatenations with suffixes of the same length split alike. *)
Lemma str_app_inv_len x1 y1 x2 y2 :
  x1 ++ y1 = x2 ++ y2 -> String.length y1 = String.length y2 -> x1 = x2 /\ y1 = y2.
Proof.
  intros H Hl. apply (f_equal list_ascii_of_string) in H.
  rewrite !list_ascii_of_string_app in H.
  apply app_inj_2 in H as [Hx Hy]; [|by rewrite !length_list_ascii_of_string].
  apply (f_equal string_of_list_ascii) in Hx, Hy.
  by rewrite !string_of_list_ascii_of_string in Hx, Hy.
Qed.
