(* ===== verification/JsObject.v ===== *)
(** * JavaScript values and objects

    The rows returned by the database driver, the parsed dashboard
    ledger and the records the export builds are JavaScript objects. An
    object is modelled as the list of its own properties in creation
    order, which is the order [JSON.stringify] writes them in, with
    JavaScript's rules:
    - assigning an existing property keeps its position, assigning a new
      one appends it ([dict_set]);
    - [delete] removes it ([dict_delete]);
    - [Object.keys] lists the array-index keys (canonical decimal
      integers below 2^32 - 1) in ascending numeric order first, then
      the other keys in creation order ([js_keys]).

    Numbers are modelled by [Z]: the code only adds and multiplies
    integers (epoch seconds, month numbers, counters) and copies the
    other numeric fields; non-integral numbers are outside the model. *)
From stdpp Require Import sorting.
From Stdlib Require Import DecimalString DecimalPos DecimalZ.
From S2P Require Import Prelude JsString.



(** ** Ordered dictionaries *)
Section Dict.
Context {V : Type}.

Definition dict := list (string * V).

Fixpoint dict_get (k : string) (d : dict) : option V :=
  match d with
  | [] => None
  | (k', v) :: d' => if String.eqb k k' then Some v else dict_get k d'
  end.

Fixpoint dict_set (k : string) (v : V) (d : dict) : dict :=
  match d with
  | [] => [(k, v)]
  | (k', v') :: d' =>
      if String.eqb k k' then (k', v) :: d' else (k', v') :: dict_set k v d'
  end.

Fixpoint dict_delete (k : string) (d : dict) : dict :=
  match d with
  | [] => []
  | (k', v') :: d' => if String.eqb k k' then d' else (k', v') :: dict_delete k d'
  end.

(** The invariant of an object: a key names at most one property. *)
Definition dict_wf (d : dict) : Prop := NoDup (map fst d).
End Dict.
Arguments dict : clear implicits.

(** ** [Object.keys] ordering *)
Definition digits_value (l : list ascii) : N :=
  fold_left (fun acc a => (10 * acc + N.of_nat (nat_of_ascii a - 48))%N) l 0%N.

(** A property key is an array index when it is the canonical decimal
    form of an integer below 2^32 - 1. *)
Definition array_index (k : string) : option N :=
  let l := list_ascii_of_string k in
  if digits1 is_dec_digit l
     && negb (Nat.ltb 1 (length l) && Ascii.eqb (hd "0"%char l) "0")
  then let n := digits_value l in
       if (n <? 4294967295)%N then Some n else None
  else None.

Definition index_keys {V} (d : dict V) : list (N * string) :=
  omap (fun kv => n ← array_index kv.1; Some (n, kv.1)) d.

Definition index_le (x y : N * string) : Prop := (x.1 <= y.1)%N.
#[export] Instance index_le_dec : RelDecision index_le.
Proof. intros x y. unfold index_le. apply _. Defined.

Definition js_keys {V} (d : dict V) : list string :=
  map snd (merge_sort index_le (index_keys d))
  ++ filter (fun k => array_index k = None) (map fst d).

(** ** Values *)
Inductive jsval : Type :=
| JUndefined
| JNull
| JBool (b : bool)
| JNum (n : Z)
| JStr (s : string)
| JArr (xs : list jsval)
| JObj (props : dict jsval).

Notation jsobj := (dict jsval).

(** Number::toString on integers. *)
Definition js_number_to_string (n : Z) : string := NilZero.string_of_int (Z.to_int n).

(** ToString, as used by string concatenation, template literals and
    property keys. An array is joined with commas, its [null] and
    [undefined] elements written as empty strings. *)
Fixpoint js_to_string (v : jsval) : string :=
  match v with
  | JUndefined => "undefined"
  | JNull => "null"
  | JBool true => "true"
  | JBool false => "false"
  | JNum n => js_number_to_string n
  | JStr s => s
  | JArr xs =>
      js_join "," (map (fun x => match x with
                                 | JUndefined | JNull => ""
                                 | _ => js_to_string x
                                 end) xs)
  | JObj _ => "[object Object]"
  end%string.

(** Reading a missing property yields [undefined]. *)
Definition prop (o : jsobj) (k : string) : jsval :=
  match dict_get k o with Some v => v | None => JUndefined end.

(** ToBoolean *)
Definition truthy (v : jsval) : bool :=
  match v with
  | JUndefined | JNull => false
  | JBool b => b
  | JNum n => negb (Z.eqb n 0)
  | JStr s => negb (String.eqb s ""%string)
  | JArr _ | JObj _ => true
  end.

(** [===] on values. Arrays and objects compare by identity; every
    array and object the code compares was created by its own
    [JSON.parse] call, so two of them are never identical. *)
Definition js_strict_eq (v w : jsval) : bool :=
  match v, w with
  | JUndefined, JUndefined | JNull, JNull => true
  | JBool a, JBool b => Bool.eqb a b
  | JNum a, JNum b => Z.eqb a b
  | JStr a, JStr b => String.eqb a b
  | _, _ => false
  end.

(** [arr.indexOf(x) === -1 && arr.push(x)] with [===]. *)
Definition js_push_unique (x : jsval) (l : list jsval) : list jsval :=
  if existsb (js_strict_eq x) l then l else l ++ [x].

(** ** Lemmas on dictionaries *)
Section DictLemmas.
Context {V : Type}.
Implicit Types (d : dict V) (k : string) (v : V).

Lemma dict_get_set_eq d k v : dict_get k (dict_set k v d) = Some v.
Proof.
  induction d as [|[k' v'] d IH]; simpl; [by rewrite String.eqb_refl|].
  destruct (String.eqb_spec k k'); simpl.
  - subst. by rewrite String.eqb_refl.
  - apply String.eqb_neq in n as Hn. by rewrite Hn.
Qed.

Lemma dict_get_set_ne d k k2 v :
  k2 <> k -> dict_get k2 (dict_set k v d) = dict_get k2 d.
Proof.
  intros Hne. apply String.eqb_neq in Hne.
  induction d as [|[k' v'] d IH]; simpl; [by rewrite Hne|].
  destruct (String.eqb_spec k k'); simpl.
  - subst. by rewrite Hne.
  - by rewrite IH.
Qed.

Lemma dict_keys_set d k v :
  map fst (dict_set k v d) =
  if bool_decide (k ∈ map fst d) then map fst d else map fst d ++ [k].
Proof.
  induction d as [|[k' v'] d IH]; simpl; [done|].
  destruct (String.eqb_spec k k') as [->|Hne]; simpl.
  - rewrite bool_decide_eq_true_2; [done|]. by left.
  - rewrite IH. case_bool_decide as H1; case_bool_decide as H2; try done.
    + exfalso. apply H2. by right.
    + exfalso. apply elem_of_cons in H2 as [?|?]; congruence.
Qed.

Lemma dict_set_wf d k v : dict_wf d -> dict_wf (dict_set k v d).
Proof.
  unfold dict_wf. intros Hd. rewrite dict_keys_set. case_bool_decide as H; [done|].
  apply NoDup_app. split; [done|]. split; [|apply NoDup_singleton].
  intros x Hx ->%list_elem_of_singleton. contradiction.
Qed.

Lemma dict_get_delete_eq d k : dict_wf d -> dict_get k (dict_delete k d) = None.
Proof.
  unfold dict_wf. induction d as [|[k' v'] d IH]; intros Hd; simpl; [done|].
  apply NoDup_cons in Hd as [Hnot Hd].
  destruct (String.eqb_spec k k') as [->|Hne]; simpl.
  - clear IH. induction d as [|[k2 v2] d IH2]; simpl; [done|].
    destruct (String.eqb_spec k' k2) as [->|]; [by destruct Hnot; left|].
    apply IH2; [by intros ?; apply Hnot; right|by apply NoDup_cons in Hd as []].
  - apply String.eqb_neq in Hne. rewrite Hne. by apply IH.
Qed.

Lemma dict_get_delete_ne d k k2 :
  k2 <> k -> dict_get k2 (dict_delete k d) = dict_get k2 d.
Proof.
  intros Hne. induction d as [|[k' v'] d IH]; simpl; [done|].
  destruct (String.eqb_spec k k') as [->|]; simpl.
  - apply String.eqb_neq in Hne. by rewrite Hne.
  - by rewrite IH.
Qed.

Lemma dict_set_fresh d k v : k ∉ map fst d -> dict_set k v d = d ++ [(k, v)].
Proof.
  induction d as [|[k' v'] d IH]; simpl; [done|]. intros Hk.
  destruct (String.eqb_spec k k') as [->|]; [by destruct Hk; left|].
  rewrite IH; [done|]. intros ?; apply Hk; by right.
Qed.

Lemma dict_set_set d k v w : dict_set k v (dict_set k w d) = dict_set k v d.
Proof.
  induction d as [|[k' v'] d IH]; simpl; [by rewrite String.eqb_refl|].
  destruct (String.eqb_spec k k'); simpl.
  - subst. by rewrite String.eqb_refl.
  - apply String.eqb_neq in n as Hn. rewrite Hn. by rewrite IH.
Qed.

Lemma dict_keys_delete_sublist d k : map fst (dict_delete k d) `sublist_of` map fst d.
Proof.
  induction d as [|[k' v'] d IH]; simpl; [done|].
  destruct (String.eqb k k'); simpl.
  - by apply sublist_cons.
  - by apply sublist_skip.
Qed.

Lemma dict_delete_wf d k : dict_wf d -> dict_wf (dict_delete k d).
Proof. unfold dict_wf. intros. eapply sublist_NoDup; [done|apply dict_keys_delete_sublist]. Qed.

(** Without array-index keys, [Object.keys] is creation order. *)
Lemma js_keys_no_index d :
  Forall (fun k => array_index k = None) (map fst d) -> js_keys d = map fst d.
Proof.
  intros Hd. unfold js_keys.
  assert (index_keys d = []) as ->.
  { unfold index_keys. induction d as [|[k v] d IH]; simpl; [done|].
    inversion Hd as [|? ? Hk Hd']; subst. simpl in Hk. rewrite Hk. simpl. by apply IH. }
  simpl. clear -Hd. induction Hd as [|k l Hk Hl IH]; [done|].
  rewrite filter_cons_True by done. by f_equal.
Qed.
End DictLemmas.

#[export] Hint Resolve dict_set_wf dict_delete_wf : parfit.
#[export] Hint Rewrite @dict_get_set_eq : parfit_rw.

Lemma js_keys_elem {V} (d : dict V) k : k ∈ js_keys d -> k ∈ map fst d.
Proof.
  unfold js_keys. rewrite elem_of_app. intros [Hk|Hk].
  - apply list_elem_of_fmap in Hk as ([n k'] & -> & Hk).
    rewrite merge_sort_Permutation in Hk. unfold index_keys in Hk.
    apply list_elem_of_omap in Hk as ([k2 v] & Hkv & Hs).
    simpl in Hs. destruct (array_index k2); simpl in Hs; [|done].
    injection Hs as <- <-. apply list_elem_of_fmap. by exists (k2, v).
  - by apply list_elem_of_filter in Hk as [_ Hk].
Qed.

Lemma dict_get_in {V} (d : dict V) k v : dict_get k d = Some v -> (k, v) ∈ d.
Proof.
  induction d as [|[k' v'] d IH]; simpl; [done|].
  destruct (String.eqb_spec k k') as [->|_]; [intros [= ->]; by left|].
  intros Hk. right. by apply IH.
Qed.

Lemma dict_get_elem {V} (d : dict V) k : k ∈ map fst d -> is_Some (dict_get k d).
Proof.
  induction d as [|[k' v] d IH]; simpl; [by intros ?%elem_of_nil|].
  intros Hk. destruct (String.eqb_spec k k'); [by eexists|].
  apply IH. apply elem_of_cons in Hk as [?|?]; [congruence|done].
Qed.

(** ** Property access, ToNumber and friends on arbitrary values *)

(** [v[k]] / [v.k]: reading a property of [null] or [undefined] throws;
    arrays and strings expose [length] and their indices; other
    primitives have none of the properties the code reads. *)
Definition js_get (v : jsval) (k : string) : res jsval :=
  match v with
  | JUndefined | JNull =>
      Throw (TypeError ("Cannot read properties of " ++ js_to_string v ++ " (reading '" ++ k ++ "')"))
  | JObj o => Ok (prop o k)
  | JArr xs =>
      if String.eqb k "length" then Ok (JNum (Z.of_nat (length xs)))
      else match array_index k with
           | Some i => Ok (match xs !! N.to_nat i with Some x => x | None => JUndefined end)
           | None => Ok JUndefined
           end
  | JStr s =>
      if String.eqb k "length" then Ok (JNum (Z.of_nat (String.length s)))
      else match array_index k with
           | Some i => Ok (match String.get (N.to_nat i) s with
                           | Some a => JStr (String a EmptyString)
                           | None => JUndefined
                           end)
           | None => Ok JUndefined
           end
  | JBool _ | JNum _ => Ok JUndefined
  end%string.

(** [v.trim()]: only strings have a [trim] method. *)
Definition js_trim_value (v : jsval) : res string :=
  match v with
  | JStr s => Ok (js_trim s)
  | _ => Throw (TypeError "trim is not a function")
  end%string.

(** [[a, b, c].join(sep)]: [null] and [undefined] elements are written as
    empty strings. *)
Definition js_join_values (sep : string) (vs : list jsval) : string :=
  js_join sep (map (fun x => match x with
                             | JUndefined | JNull => ""%string
                             | _ => js_to_string x
                             end) vs).

(** [Object.keys(v)] for the values the code applies it to. *)
Definition js_object_keys (v : jsval) : res (list string) :=
  match v with
  | JUndefined | JNull => Throw (TypeError "Cannot convert undefined or null to object")
  | JObj o => Ok (js_keys o)
  | JArr xs => Ok (map (fun i => js_number_to_string (Z.of_nat i)) (seq 0 (length xs)))
  | JStr s => Ok (map (fun i => js_number_to_string (Z.of_nat i)) (seq 0 (String.length s)))
  | JBool _ | JNum _ => Ok []
  end%string.

(** ToNumber on a string, for the integer numerals the model covers: an
    optional sign and decimal digits, surrounded by white space; the
    blank string is [0]. [None] stands for NaN, and also for numerals
    with a fraction, an exponent or a radix prefix, which are outside
    the integer model. *)
Definition string_to_integer (s : string) : option Z :=
  let l := list_ascii_of_string (js_trim s) in
  match l with
  | [] => Some 0%Z
  | a :: r =>
      if Ascii.eqb a "-" then
        if digits1 is_dec_digit r then Some (- Z.of_N (digits_value r))%Z else None
      else if Ascii.eqb a "+" then
        if digits1 is_dec_digit r then Some (Z.of_N (digits_value r)) else None
      else if digits1 is_dec_digit l then Some (Z.of_N (digits_value l)) else None
  end%char.

(** ToNumber, as the unary [+] applies it. *)
Definition js_to_number (v : jsval) : option Z :=
  match v with
  | JUndefined => None
  | JNull => Some 0%Z
  | JBool b => Some (if b then 1 else 0)%Z
  | JNum n => Some n
  | JStr s => string_to_integer s
  | JArr _ => string_to_integer (js_to_string v)
  | JObj _ => None
  end.

Lemma js_number_to_string_inj a b : js_number_to_string a = js_number_to_string b -> a = b.
Proof.
  unfold js_number_to_string. intros H.
  apply (f_equal NilZero.int_of_string) in H.
  assert (Hnn : forall z, Z.to_int z <> Decimal.Pos Decimal.Nil /\ Z.to_int z <> Decimal.Neg Decimal.Nil).
  { intros [|p|p]; simpl; split; try discriminate; intros [= Hp];
      by apply (DecimalPos.Unsigned.to_uint_nonnil p). }
  destruct (Hnn a), (Hnn b).
  rewrite !NilZero.isi in H by done. injection H as H. by apply DecimalZ.to_int_inj.
Qed.
