(* ===== verification/Namespacing.v ===== *)
(** * Column lists and namespacing (export/index.js, lines 442-560)

    [fields] renders the comma-separated column list of the fixed
    CiviCRM tables, [custom_table_name] shortens a custom-field table
    name to the alias used in the query, [custom_table_column_namespace]
    turns ["alias.column"] into the flat output name ["alias__column"],
    and [custom_table_fields] lists the columns of one or all custom
    tables, optionally aliased ('as') or already namespaced ('full'). *)
From S2P Require Import Prelude JsString JsObject.

Local Open Scope string_scope.

Module Namespacing.

(** ** [fields] (lines 442-504) *)

(** The [fields_names] object literal (lines 444-487). *)
Definition fields_names : dict (list string) :=
  [("contact", ["id"; "source"; "first_name"; "last_name"; "prefix_id";
                "suffix_id"; "job_title"; "gender_id"; "birth_date"]);
   ("email", ["contact_id"; "email"]);
   ("address", ["contact_id"; "street_address"; "supplemental_address_1";
                "supplemental_address_2"; "city"; "postal_code";
                "state_province_id"; "country_id"]);
   ("phone", ["contact_id"; "phone"]);
   ("group_contact", ["contact_id"; "group_id"]);
   ("group", ["id"; "title"]);
   ("custom_group", ["id"; "name"; "table_name"])].

(** The first argument of [fields] is an array of table names or one
    table name (with an optional alias, [tableName]). *)
Inductive fields_arg : Type :=
| FieldsOf (table : string) (tableName : option string)
| FieldsOfAll (tables : list string).

(** [fields_names[t].forEach]: an unknown table reads [undefined]. *)
Definition table_fields (t : string) : res (list string) :=
  match dict_get t fields_names with
  | Some fs => Ok fs
  | None => Throw (TypeError ("Cannot read properties of undefined (reading 'forEach')"))
  end.

Definition fields (arg : fields_arg) : res string :=
  match arg with
  | FieldsOfAll ts =>
      ls ← res_mapM (fun t =>
              fs ← table_fields t;
              Ok (map (fun f => t ++ "." ++ f)
                      (filter (fun f => f <> "contact_id") fs))) ts;
      Ok (js_join "," (concat ls))
  | FieldsOf t tn =>
      let tableName := match tn with
                       | Some n => if String.eqb n "" then t else n
                       | None => t
                       end in
      fs ← table_fields t;
      Ok (js_join "," (map (fun f => tableName ++ "." ++ f) fs))
  end.

(** ** [custom_table_name] (lines 555-560) *)
Definition custom_table_name (name : string) : string :=
  let name := js_replace_first "civicrm_value_" "" name in
  js_join "" (removelast (js_split "_" name)).

(** ** [custom_table_column_namespace] (lines 544-553) *)

(** [column = column.split('_'); if (!isNaN(column[column.length - 1]))
    column.pop(); column = column.join('_')] *)
Definition strip_numeric_suffix (column : string) : string :=
  let parts := js_split "_" column in
  let parts := if negb (js_isNaN_string (List.last parts "")) then removelast parts
               else parts in
  js_join "_" parts.

Definition custom_table_column_namespace (input : string) : res string :=
  match js_split "." input with
  | table :: column :: _ => Ok (table ++ "__" ++ strip_numeric_suffix column)
  | _ => Throw (TypeError "Cannot read properties of undefined (reading 'split')")
  end.

(** ** [custom_table_fields] (lines 506-542) *)

(** The schema built by the discovery step: custom table name to its
    columns, a JavaScript object. *)
Notation schema := (dict (list string)).

(** [schema[table].forEach(column => column !== 'id' && output.push(name + '.' + column))] *)
Definition table_columns (name : string) (cols : list string) : list string :=
  map (fun c => name ++ "." ++ c) (filter (fun c => c <> "id") cols).

Definition schema_columns (s : schema) (table : string) : res (list string) :=
  match dict_get table s with
  | Some cols => Ok (table_columns (custom_table_name table) cols)
  | None => Throw (TypeError "Cannot read properties of undefined (reading 'forEach')")
  end.

(** The second argument is [false] ([None]) or a table name; the third
    is [false] or a mode string. Both are tested for truthiness. *)
Definition str_truthy (o : option string) : option string :=
  match o with
  | Some s => if String.eqb s "" then None else Some s
  | None => None
  end.

Definition namespace_as (e : string) : res string :=
  a ← custom_table_column_namespace e; Ok (e ++ " AS " ++ a).

Definition namespace_full (e : string) : res string :=
  a ← custom_table_column_namespace e; Ok (hd "" (js_split "." e) ++ "." ++ a).

Definition apply_namespacing (mode : option string) (output : list string)
  : res (list string) :=
  match str_truthy mode with
  | Some m =>
      if String.eqb (js_to_lower m) "as" then res_mapM namespace_as output
      else if String.eqb (js_to_lower m) "full" then res_mapM namespace_full output
      else Ok output
  | None => Ok output
  end.

Definition custom_table_fields (s : schema) (custom_table : option string)
    (namespacing : option string) : res string :=
  output ← match str_truthy custom_table with
           | Some t => schema_columns s t
           | None => ls ← res_mapM (schema_columns s) (js_keys s); Ok (concat ls)
           end;
  output ← apply_namespacing namespacing output;
  Ok (js_join "," output).

(** ** Properties *)
Section NamespacingProperties.

Lemma split_dot_pair t col :
  str_has "." t = false -> str_has "." col = false ->
  js_split "." (t ++ "." ++ col) = [t; col].
Proof.
  intros Ht Hc. change ("." ++ col) with (String "." col).
  rewrite js_split_app_sep, !js_split_free by done. reflexivity.
Qed.

Lemma split_underscore_snoc c x :
  str_has "_" x = false ->
  js_split "_" (c ++ "_" ++ x) = (js_split "_" c ++ [x])%list.
Proof.
  intros Hx. change ("_" ++ x) with (String "_" x).
  by rewrite js_split_app_sep, (js_split_free _ x).
Qed.

(** C15. A column whose last ['_']-separated token is a non-empty run of
    digits loses that token (and its underscore) in the output name. *)
Lemma column_namespace_strips_numeric t c n :
  str_has "." t = false -> str_has "." c = false ->
  digits1 is_dec_digit (list_ascii_of_string n) = true ->
  custom_table_column_namespace (t ++ "." ++ c ++ "_" ++ n) = Ok (t ++ "__" ++ c).
Proof.
  intros Ht Hc Hn.
  assert (Hnd : str_has "." n = false) by (apply digits_not_has; [done|reflexivity]).
  assert (Hnu : str_has "_" n = false) by (apply digits_not_has; [done|reflexivity]).
  unfold custom_table_column_namespace.
  rewrite split_dot_pair; [|done|]. 2: by rewrite !str_has_app, Hc, Hnd.
  do 3 f_equal. unfold strip_numeric_suffix.
  rewrite split_underscore_snoc, List.last_last by done.
  rewrite js_isNaN_digits by done. cbn [negb]. rewrite removelast_last.
  apply js_join_split.
Qed.
(** C17. A column whose last token starts with a lower-case letter keeps
    its full name: the output name is ["table__column"]. *)
Lemma column_namespace_keeps_word t c a w :
  is_lower a = true -> str_has "_" w = false ->
  str_has "." t = false -> str_has "." c = false -> str_has "." w = false ->
  custom_table_column_namespace (t ++ "." ++ c ++ "_" ++ String a w)
  = Ok (t ++ "__" ++ c ++ "_" ++ String a w).
Proof.
  intros Hl Hw Ht Hc Hwd.
  destruct (lower_facts a Hl) as (_ & _ & _ & _ & _ & _ & Hu & Hd).
  unfold custom_table_column_namespace.
  rewrite split_dot_pair; [|done|]. 2: by rewrite !str_has_app, !str_has_cons, Hc, Hd, Hwd.
  do 3 f_equal. unfold strip_numeric_suffix.
  rewrite split_underscore_snoc, List.last_last by (by rewrite str_has_cons, Hu, Hw).
  rewrite js_isNaN_lower_start by done. cbn [negb].
  rewrite js_join_snoc by apply js_split_nonempty. by rewrite js_join_split.
Qed.

(** C16. [isNaN('')] is [false]: a column ending in an underscore loses it,
    so ["foo_"] and ["foo"] get the same output name. *)
Lemma column_namespace_trailing_underscore t c :
  str_has "." t = false -> str_has "." c = false ->
  custom_table_column_namespace (t ++ "." ++ c ++ "_") = Ok (t ++ "__" ++ c).
Proof.
  intros Ht Hc.
  unfold custom_table_column_namespace.
  rewrite split_dot_pair; [|done|]. 2: by rewrite !str_has_app, Hc.
  do 3 f_equal. unfold strip_numeric_suffix.
  rewrite <- (str_app_nil_r "_"), split_underscore_snoc, List.last_last by done.
  change (js_isNaN_string "") with false. cbn [negb]. rewrite removelast_last.
  apply js_join_split.
Qed.

(** C19. [custom_table_name] of ["civicrm_value_w1_..._wk_x"] is the
    words [w1 ... wk] glued without separator: the last token is dropped
    whatever it is, and the words are not separated. *)
Lemma custom_table_name_shape ws x :
  Forall (fun w => str_has "_" w = false) (ws ++ [x])%list ->
  custom_table_name ("civicrm_value_" ++ js_join "_" (ws ++ [x])%list) = js_join "" ws.
Proof.
  intros Hws. unfold custom_table_name.
  rewrite js_replace_first_prefix, str_app_nil_l.
  rewrite js_split_join by (by destruct ws). by rewrite removelast_last.
Qed.

Lemma namespace_total x y :
  exists a, custom_table_column_namespace (x ++ "." ++ y) = Ok a.
Proof.
  unfold custom_table_column_namespace. change ("." ++ y) with (String "." y).
  rewrite js_split_app_sep.
  pose proof (js_split_nonempty "." x). pose proof (js_split_nonempty "." y).
  destruct (js_split "." x) as [|p [|p' ps]]; [done| |by eexists].
  destruct (js_split "." y); [done|]. by eexists.
Qed.

Definition dotted (e : string) : Prop := exists x y, e = x ++ "." ++ y.

Lemma apply_namespacing_total mode out :
  Forall dotted out -> exists r, apply_namespacing mode out = Ok r.
Proof.
  intros Hout. unfold apply_namespacing.
  assert (Hall : forall f : string -> res string,
            (forall x y, exists r, f (x ++ "." ++ y) = Ok r) ->
            exists r, res_mapM f out = Ok r).
  { intros f Hf. apply res_mapM_total. intros e He.
    apply Forall_forall with (x := e) in Hout as (x & y & ->); [|done]. apply Hf. }
  destruct (str_truthy mode) as [m|]; [|by eexists].
  destruct (String.eqb _ "as"); [|destruct (String.eqb _ "full"); [|by eexists]];
    apply Hall; intros x y; [unfold namespace_as|unfold namespace_full];
    destruct (namespace_total x y) as [a ->]; by eexists.
Qed.

Lemma table_columns_dotted name cols : Forall dotted (table_columns name cols).
Proof.
  apply Forall_forall. intros e He.
  apply list_elem_of_In, in_map_iff in He as (c & <- & _). by exists name, c.
Qed.

Lemma all_schema_columns_ok (s : schema) :
  exists ls, res_mapM (schema_columns s) (js_keys s) = Ok ls /\ Forall dotted (concat ls).
Proof.
  destruct (res_mapM_total (schema_columns s) (js_keys s)) as [ls Hls].
  { intros k Hk%js_keys_elem. destruct (dict_get_elem s k Hk) as [cols Hc].
    unfold schema_columns. rewrite Hc. by eexists. }
  exists ls. split; [done|].
  apply Forall_concat, Forall_forall. intros l Hl.
  destruct (res_mapM_elem _ _ _ _ Hls Hl) as (k & _ & Hk).
  unfold schema_columns in Hk. destruct (dict_get k s); [|done].
  injection Hk as <-. apply table_columns_dotted.
Qed.

(** C14. [custom_table_fields] over all tables never throws, whatever the
    schema: two tables with the same short name, or two columns with the
    same output name, go through undetected (the spec requires a fatal
    schema-consistency error before any data is fetched). *)
Lemma custom_table_fields_total (s : schema) mode :
  exists out, custom_table_fields s None mode = Ok out.
Proof.
  unfold custom_table_fields. simpl.
  destruct (all_schema_columns_ok s) as (ls & -> & Hd). simpl.
  destruct (apply_namespacing_total mode (concat ls)) as [r ->]; [done|simpl; by eexists].
Qed.

(** A schema whose tables have no column but [id] contributes nothing:
    every column list is filtered empty, whatever the namespacing mode. *)
Lemma custom_table_fields_id_only (s : schema) mode :
  Forall (fun tc => Forall (fun c => c = "id") tc.2) s ->
  custom_table_fields s None mode = Ok "".
Proof.
  intros Hid. unfold custom_table_fields. simpl.
  destruct (all_schema_columns_ok s) as (ls & Hls & _). rewrite Hls. simpl.
  assert (Hnil : Forall (fun l => l = []) ls).
  { apply Forall_forall. intros l Hl.
    destruct (res_mapM_elem _ _ _ _ Hls Hl) as (k & _ & Hk).
    unfold schema_columns in Hk. destruct (dict_get k s) as [cols|] eqn:Ec; [|done].
    injection Hk as <-. apply dict_get_in in Ec.
    eapply Forall_forall in Hid; [|exact Ec]. simpl in Hid.
    unfold table_columns. clear - Hid. induction Hid as [|c cols -> _ IH]; [done|].
    rewrite filter_cons_False; [exact IH|]. by intros Hne. }
  assert (Hc : concat ls = []) by (clear - Hnil; induction Hnil as [|l ls -> _ IH]; [done|exact IH]).
  rewrite Hc. unfold apply_namespacing.
  destruct (str_truthy mode); [repeat case_match|]; reflexivity.
Qed.

(** Over one table present in the schema, [custom_table_fields] succeeds
    as well. *)
Lemma custom_table_fields_total_key (s : schema) t mode :
  t ∈ map fst s -> exists out, custom_table_fields s (Some t) mode = Ok out.
Proof.
  intros Ht. unfold custom_table_fields, str_truthy.
  destruct (String.eqb t "").
  - destruct (all_schema_columns_ok s) as (ls & -> & Hd). simpl.
    destruct (apply_namespacing_total mode (concat ls)) as [r ->]; [done|simpl; by eexists].
  - destruct (dict_get_elem s t Ht) as [cols Hc]. unfold schema_columns. rewrite Hc. simpl.
    destruct (apply_namespacing_total mode (table_columns (custom_table_name t) cols))
      as [r ->]; [apply table_columns_dotted|simpl; by eexists].
Qed.

(** C18. The outer query selects a custom column as [N.a] exactly where the
    subquery aliased [N] defines [a]: the 'full' and the 'as' renderings
    of a column agree on its output name. *)
Lemma namespace_full_as_agree n c :
  str_has "." n = false ->
  exists a, namespace_full (n ++ "." ++ c) = Ok (n ++ "." ++ a)
            /\ namespace_as (n ++ "." ++ c) = Ok (n ++ "." ++ c ++ " AS " ++ a).
Proof.
  intros Hn. destruct (namespace_total n c) as [a Ha]. exists a.
  unfold namespace_full, namespace_as. rewrite Ha. simpl. split; [|by rewrite <- !str_app_assoc].
  change ("." ++ c) with (String "." c). rewrite js_split_app_sep, js_split_free by done.
  reflexivity.
Qed.

End NamespacingProperties.

(** ** Witnesses at the column names of a CiviCRM deployment *)

Lemma column_namespace_strips_numeric_witness :
  custom_table_column_namespace
    ("membershipstatus" ++ "." ++ "giving_what_we_can_member" ++ "_" ++ "12")
  = Ok ("membershipstatus" ++ "__" ++ "giving_what_we_can_member").
Proof. apply column_namespace_strips_numeric; reflexivity. Defined.

Lemma column_namespace_keeps_word_witness :
  custom_table_column_namespace ("membershipstatus" ++ "." ++ "entity" ++ "_" ++ String "i" "d")
  = Ok ("membershipstatus" ++ "__" ++ "entity" ++ "_" ++ String "i" "d").
Proof. apply column_namespace_keeps_word; reflexivity. Defined.

Lemma column_namespace_trailing_underscore_witness :
  custom_table_column_namespace ("dates" ++ "." ++ "left_date_former_members" ++ "_")
  = Ok ("dates" ++ "__" ++ "left_date_former_members").
Proof. apply column_namespace_trailing_underscore; reflexivity. Defined.

Lemma namespace_full_as_agree_witness :
  exists a, namespace_full ("dates" ++ "." ++ "joining_date_20") = Ok ("dates" ++ "." ++ a)
            /\ namespace_as ("dates" ++ "." ++ "joining_date_20")
                = Ok ("dates" ++ "." ++ "joining_date_20" ++ " AS " ++ a).
Proof. apply namespace_full_as_agree. reflexivity. Defined.

Lemma custom_table_name_shape_witness :
  custom_table_name ("civicrm_value_" ++ js_join "_" (["membership"; "status"] ++ ["3"])%list)
  = js_join "" ["membership"; "status"].
Proof. apply custom_table_name_shape. repeat constructor. Defined.

End Namespacing.
