(* ===== verification/QueryAssembler.v ===== *)
(** * Schema discovery and the main query (export/index.js, lines 159-217, 430-440)

    [execute] first reads the custom groups, then asks the catalog for the
    columns of each custom group's table, and builds the schema object
    ([discover]). It then assembles the wide contact query
    ([main_query_lines]): core columns, the namespaced custom columns,
    one LEFT OUTER JOIN per related table and per custom table, the
    membership filter and the optional LIMIT.

    The source database is the collaborator [db]: it maps the text of a
    query to the rows it returns, or to the error that rejects the query's
    promise. *)
From S2P Require Import Prelude JsString JsObject Namespacing.

Local Open Scope string_scope.

Module QueryAssembler.
Import Namespacing.

(** A double quote, written without an escaped literal. *)
Definition dquote : string := String (ascii_of_nat 34) EmptyString.

(** ** [query] (lines 430-440): the lines joined by newlines, then [;] *)
Definition query_text (q : list string) : string := js_join (String "010" "") q ++ ";".

Definition source_db := string -> res (list jsobj).

(** ** Discovery (lines 162-187) *)
Definition custom_group_query : res (list string) :=
  f ← fields (FieldsOf "custom_group" None);
  Ok ["SELECT " ++ f ++ " FROM `civicrm_custom_group` custom_group"].

Definition columns_query (table_name : jsval) : list string :=
  ["SELECT column_name FROM information_schema.columns WHERE table_name="
     ++ dquote ++ js_to_string table_name ++ dquote].

(** [result.column_name]; the catalog returns it as a string. *)
Definition column_name (row : jsobj) : string := js_to_string (prop row "column_name").

(** Lines 179-184: [custom_table_schema[custom_tables[i].table_name] = []]
    then one push per row of [results[i]]: the i-th answer is paired
    with the i-th custom group. *)
Definition table_key (t : jsobj) : string := js_to_string (prop t "table_name").

Fixpoint build_schema (tables : list jsobj) (results : list (list jsobj)) (acc : schema)
  : res schema :=
  match results, tables with
  | [], _ => Ok acc
  | r :: rs, t :: ts =>
      let key := table_key t in
      build_schema ts rs (dict_set key (map column_name r) (dict_set key [] acc))
  | _ :: _, [] => Throw (TypeError "Cannot read properties of undefined (reading 'table_name')")
  end.

Definition discover (db : source_db) : res schema :=
  q ← custom_group_query;
  custom_tables ← db (query_text q);
  results ← res_mapM (fun row => db (query_text (columns_query (prop row "table_name"))))
              custom_tables;
  build_schema custom_tables results [].

(** ** The main query (lines 188-216) *)
Definition custom_join (s : schema) (custom_table : string) : res (list string) :=
  let name := custom_table_name custom_table in
  a ← custom_table_fields s (Some custom_table) (Some "as");
  Ok ["LEFT OUTER JOIN (SELECT " ++ a ++ " FROM " ++ custom_table ++ " " ++ name ++ ") " ++ name;
      "ON contact.id=" ++ name ++ "." ++ name ++ "__entity_id"].

Definition where_lines : list string :=
  ["WHERE (";
   "contact.contact_type=" ++ dquote ++ "Individual" ++ dquote;
   "AND (membershipstatus.membershipstatus__giving_what_we_can_member=" ++ dquote ++ "1"
     ++ dquote ++ " OR membershipstatus.membershipstatus__trying_out_giving=" ++ dquote
     ++ "1" ++ dquote ++ " OR membershipstatus.membershipstatus__my_giving_user=" ++ dquote
     ++ "1" ++ dquote ++ ")";
   ")"].

(** [if (options.limit) q.push(`LIMIT ${options.limit} OFFSET 300`)] *)
Definition limit_lines (limit : jsval) : list string :=
  if truthy limit then ["LIMIT " ++ js_to_string limit ++ " OFFSET 300"] else [].

Definition related_join (table : string) (fs : string) : string :=
  "LEFT OUTER JOIN (SELECT " ++ fs ++ " FROM `civicrm_" ++ table ++ "` " ++ table ++ " WHERE "
  ++ table ++ ".is_primary=1) " ++ table ++ " ON contact.id=" ++ table ++ ".contact_id".

Definition header_lines (f cf fe fa fp : string) : list string :=
  ["SELECT " ++ f; "," ++ cf ++ " "; "FROM civicrm_contact contact";
   related_join "email" fe; related_join "address" fa; related_join "phone" fp].

Definition main_query_lines (s : schema) (limit : jsval) : res (list string) :=
  f ← fields (FieldsOfAll ["contact"; "email"; "address"; "phone"]);
  cf ← custom_table_fields s None (Some "full");
  fe ← fields (FieldsOf "email" None);
  fa ← fields (FieldsOf "address" None);
  fp ← fields (FieldsOf "phone" None);
  joins ← res_mapM (custom_join s) (js_keys s);
  Ok (app (header_lines f cf fe fa fp)
          (app (concat joins) (app where_lines (limit_lines limit)))).

(** ** Properties *)
Section QueryProperties.

#[local] Arguments header_lines : simpl never.
#[local] Arguments where_lines : simpl never.
#[local] Arguments limit_lines : simpl never.

Lemma fields_core_ok :
  fields (FieldsOfAll ["contact"; "email"; "address"; "phone"])
  = Ok "contact.id,contact.source,contact.first_name,contact.last_name,contact.prefix_id,contact.suffix_id,contact.job_title,contact.gender_id,contact.birth_date,email.email,address.street_address,address.supplemental_address_1,address.supplemental_address_2,address.city,address.postal_code,address.state_province_id,address.country_id,phone.phone".
Proof. reflexivity. Qed.

Lemma fields_related_ok t :
  t ∈ ["email"; "address"; "phone"] -> exists f, fields (FieldsOf t None) = Ok f.
Proof. intros Ht. repeat (apply elem_of_cons in Ht as [->|Ht]; [by eexists|]). by apply elem_of_nil in Ht. Qed.

Lemma custom_join_ok s t :
  t ∈ map fst s -> exists l1 l2, custom_join s t = Ok [l1; l2].
Proof.
  intros Ht. unfold custom_join.
  destruct (custom_table_fields_total_key s t (Some "as") Ht) as [a ->]. simpl. by eexists _, _.
Qed.

Lemma custom_joins_length s joins :
  res_mapM (custom_join s) (js_keys s) = Ok joins ->
  length (concat joins) = 2 * length (js_keys s).
Proof.
  intros H%res_mapM_Forall2. induction H as [|t j ks js Hj _ IH]; [done|].
  unfold custom_join in Hj. destruct (custom_table_fields _ _ _); [|done].
  injection Hj as <-. simpl. lia.
Qed.

Lemma main_query_lines_inv (s : schema) limit q :
  main_query_lines s limit = Ok q ->
  exists cf joins hdr,
    custom_table_fields s None (Some "full") = Ok cf
    /\ res_mapM (custom_join s) (js_keys s) = Ok joins
    /\ length hdr = 6 /\ hdr !! 1 = Some ("," ++ cf ++ " ")
    /\ q = app hdr (app (concat joins) (app where_lines (limit_lines limit))).
Proof.
  intros H. unfold main_query_lines in H. rewrite fields_core_ok in H.
  destruct (custom_table_fields s None (Some "full")) as [cf|] eqn:Ecf; simpl in H;
    [|discriminate H].
  destruct (res_mapM (custom_join s) (js_keys s)) as [joins|] eqn:Ej; simpl in H;
    [|discriminate H].
  injection H as <-. by eexists _, _, (header_lines _ _ _ _ _).
Qed.


Lemma build_schema_fresh tables results (acc : schema) :
  length tables = length results -> NoDup (map table_key tables) ->
  (forall t, t ∈ tables -> table_key t ∉ map fst acc) ->
  build_schema tables results acc
  = Ok (acc ++ zip_with (fun t r => (table_key t, map column_name r)) tables results)%list.
Proof.
  revert tables acc. induction results as [|r rs IH]; intros [|t ts] acc Hlen Hnd Hfresh;
    try discriminate Hlen; simpl; [by rewrite app_nil_r|].
  apply NoDup_cons in Hnd as [Hnotin Hnd].
  rewrite dict_set_set, dict_set_fresh by (apply Hfresh; by left).
  rewrite IH; [by rewrite <- app_assoc| by injection Hlen | done |].
  intros t' Ht'. rewrite map_app, elem_of_app. intros [Hin|Hin].
  - apply (Hfresh t'); [by right|done].
  - simpl in Hin. apply list_elem_of_singleton in Hin. apply Hnotin. rewrite <- Hin.
    apply list_elem_of_In, in_map. by apply list_elem_of_In.
Qed.

Lemma custom_group_query_ok :
  custom_group_query = Ok ["SELECT custom_group.id,custom_group.name,custom_group.table_name FROM `civicrm_custom_group` custom_group"].
Proof. reflexivity. Qed.

(** C11. Discovery builds the schema keyed by table name: when the
    custom groups name distinct tables, the schema maps each group's
    [table_name], in the order of the groups, to the [column_name]s the
    catalog returns for that table. *)
Lemma discover_spec (db : source_db) groups (cat : jsobj -> list jsobj) :
  db (query_text ["SELECT custom_group.id,custom_group.name,custom_group.table_name FROM `civicrm_custom_group` custom_group"]) = Ok groups ->
  Forall (fun g => db (query_text (columns_query (prop g "table_name"))) = Ok (cat g)) groups ->
  NoDup (map table_key groups) ->
  discover db = Ok (map (fun g => (table_key g, map column_name (cat g))) groups).
Proof.
  intros Hg Hc Hnd. unfold discover. rewrite custom_group_query_ok.
  cbn [mbind res_mbind res_bind]. rewrite Hg. cbn [mbind res_mbind res_bind].
  rewrite (res_mapM_ok_map _ cat) by done. cbn [mbind res_mbind res_bind].
  rewrite build_schema_fresh; [|by rewrite length_map|done|by intros ? ? ?%elem_of_nil].
  by rewrite zip_with_map_r.
Qed.

(** C13. The join of a custom table is keyed on [N.N__entity_id], and
    whenever the table has an [entity_id] column its subquery selects
    [N.entity_id AS N__entity_id]: the ON clause names a column the
    subquery defines. *)
Lemma custom_join_on_alias_selected (s : schema) t cols :
  dict_get t s = Some cols -> "entity_id" ∈ cols -> t <> "" ->
  str_has "." (custom_table_name t) = false ->
  exists sel,
    (custom_table_name t ++ "." ++ "entity_id" ++ " AS " ++ custom_table_name t ++ "__"
       ++ "entity_id") ∈ sel
    /\ custom_join s t
       = Ok ["LEFT OUTER JOIN (SELECT " ++ js_join "," sel ++ " FROM " ++ t ++ " "
               ++ custom_table_name t ++ ") " ++ custom_table_name t;
             "ON contact.id=" ++ custom_table_name t ++ "." ++ custom_table_name t
               ++ "__entity_id"].
Proof.
  intros Hc He Ht Hn. set (n := custom_table_name t) in *.
  destruct (apply_namespacing_total (Some "as") (table_columns n cols)) as [sel Hsel];
    [apply table_columns_dotted|].
  exists sel. split.
  - unfold apply_namespacing in Hsel. simpl in Hsel.
    assert (Hin : n ++ "." ++ "entity_id" ∈ table_columns n cols).
    { apply list_elem_of_In, in_map_iff. exists "entity_id". split; [done|].
      apply list_elem_of_In, list_elem_of_filter. split; [discriminate|done]. }
    destruct (res_mapM_elem_l _ _ _ _ Hsel Hin) as (y & Hy & Hns).
    unfold namespace_as in Hns.
    change "entity_id" with ("entity" ++ "_" ++ String "i" "d") in Hns.
    rewrite (column_namespace_keeps_word n "entity" "i" "d") in Hns by done.
    simpl in Hns. injection Hns as <-. by rewrite <- !str_app_assoc in Hy.
  - unfold custom_join, custom_table_fields. simpl.
    apply String.eqb_neq in Ht. rewrite Ht. unfold schema_columns. rewrite Hc. simpl.
    fold n. rewrite Hsel. reflexivity.
Qed.

(** C12. The main query is always assembled, with six header lines, two
    lines per custom table, four lines of WHERE clause and one LIMIT line
    when the limit is truthy. *)
Lemma main_query_shape (s : schema) limit :
  exists q, main_query_lines s limit = Ok q
  /\ length q = 10 + 2 * length (js_keys s) + length (limit_lines limit).
Proof.
  destruct (custom_table_fields_total s (Some "full")) as [cf Hcf].
  destruct (res_mapM_total (custom_join s) (js_keys s)) as [joins Hj].
  { intros t Ht%js_keys_elem. destruct (custom_join_ok s t Ht) as (l1 & l2 & ->). by eexists. }
  assert (exists q, main_query_lines s limit = Ok q) as [q Hq].
  { unfold main_query_lines. rewrite fields_core_ok, Hcf. simpl. rewrite Hj. by eexists. }
  exists q. split; [done|].
  destruct (main_query_lines_inv s limit q Hq) as (cf' & joins' & hdr & _ & Hj' & Hl & _ & ->).
  rewrite Hj in Hj'. injection Hj' as <-.
  rewrite !length_app, Hl, (custom_joins_length s joins Hj). simpl. lia.
Qed.

(** C20. When no custom table contributes a column other than [id]
    (in particular when there is no custom table at all), the second line
    of the query is [", "]: the select list ends in a comma and the text
    is not valid SQL, while the spec requires an empty extension schema
    to be accepted. *)
Lemma main_query_no_custom_columns (s : schema) limit q :
  Forall (fun tc => Forall (fun c => c = "id") tc.2) s ->
  main_query_lines s limit = Ok q -> q !! 1 = Some ", ".
Proof.
  intros Hid (cf & joins & hdr & Hcf & _ & Hl & Hh & ->)%main_query_lines_inv.
  rewrite custom_table_fields_id_only in Hcf by done. injection Hcf as <-.
  rewrite lookup_app_l by lia. exact Hh.
Qed.

(** C21. The query ends with [LIMIT n OFFSET 300] when the limit is
    truthy and with the closing parenthesis of the WHERE clause
    otherwise (a limit of [0] or [false] fetches every row). *)
Lemma main_query_limit (s : schema) limit q :
  main_query_lines s limit = Ok q ->
  last q = Some (if truthy limit then "LIMIT " ++ js_to_string limit ++ " OFFSET 300" else ")").
Proof.
  intros (cf & joins & hdr & _ & _ & _ & _ & ->)%main_query_lines_inv.
  assert (Hw : app where_lines (limit_lines limit) <> []) by (unfold where_lines; done).
  rewrite last_app_ne, last_app_ne by first [done | apply app_ne_r; done].
  unfold limit_lines, where_lines. by destruct (truthy limit).
Qed.

End QueryProperties.

(** ** Witnesses *)

Definition sample_schema : schema :=
  [("civicrm_value_membership_status_3",
    ["id"; "entity_id"; "giving_what_we_can_member_12"; "trying_out_giving_13";
     "my_giving_user_14"]);
   ("civicrm_value_dates_4", ["id"; "entity_id"; "joining_date_20"])].

Definition id_only_schema : schema := [("civicrm_value_pledge_5", ["id"])].

Lemma main_query_no_custom_columns_witness :
  exists q, main_query_lines id_only_schema (JNum 25) = Ok q /\ q !! 1 = Some ", ".
Proof.
  eexists. split; [reflexivity|].
  apply (main_query_no_custom_columns id_only_schema (JNum 25)); [repeat constructor|reflexivity].
Defined.

Lemma main_query_limit_witness :
  exists q, main_query_lines sample_schema (JNum 25) = Ok q
  /\ last q = Some ("LIMIT " ++ js_to_string (JNum 25) ++ " OFFSET 300").
Proof.
  eexists. split; [reflexivity|]. apply (main_query_limit sample_schema (JNum 25)). reflexivity.
Defined.

Lemma custom_join_on_alias_selected_witness :
  exists sel,
    (custom_table_name "civicrm_value_dates_4" ++ "." ++ "entity_id" ++ " AS "
       ++ custom_table_name "civicrm_value_dates_4" ++ "__" ++ "entity_id") ∈ sel
    /\ custom_join sample_schema "civicrm_value_dates_4"
       = Ok ["LEFT OUTER JOIN (SELECT " ++ js_join "," sel ++ " FROM " ++ "civicrm_value_dates_4"
               ++ " " ++ custom_table_name "civicrm_value_dates_4" ++ ") "
               ++ custom_table_name "civicrm_value_dates_4";
             "ON contact.id=" ++ custom_table_name "civicrm_value_dates_4" ++ "."
               ++ custom_table_name "civicrm_value_dates_4" ++ "__entity_id"].
Proof.
  apply (custom_join_on_alias_selected sample_schema "civicrm_value_dates_4"
           ["id"; "entity_id"; "joining_date_20"]).
  - reflexivity.
  - right. left.
  - discriminate.
  - reflexivity.
Defined.

Definition sample_group : jsobj :=
  [("id", JNum 3); ("name", JStr "Membership_Status");
   ("table_name", JStr "civicrm_value_membership_status_3")].

Definition sample_columns : list jsobj :=
  [[("column_name", JStr "id")]; [("column_name", JStr "entity_id")];
   [("column_name", JStr "giving_what_we_can_member_12")]].

Definition sample_db : source_db := fun q =>
  if String.eqb q (query_text ["SELECT custom_group.id,custom_group.name,custom_group.table_name FROM `civicrm_custom_group` custom_group"])
  then Ok [sample_group]
  else if String.eqb q (query_text (columns_query (JStr "civicrm_value_membership_status_3")))
  then Ok sample_columns
  else Throw (DbError "no such table").

Lemma discover_spec_witness :
  discover sample_db
  = Ok (map (fun g => (table_key g, map column_name sample_columns)) [sample_group]).
Proof.
  apply (discover_spec sample_db [sample_group] (fun _ => sample_columns)).
  - reflexivity.
  - constructor; [reflexivity|constructor].
  - apply NoDup_singleton.
Defined.

End QueryAssembler.
