(* ===== verification/ReferenceResolver.v ===== *)
(** * Region and country resolution (export/index.js, lines 218-251)

    After the main query, two side queries read the state/province and
    country code tables. Each becomes a lookup object (id to name, id to
    ISO code), and every row is copied with [state_province] and
    [country] set to the resolved label, or [null] when the code has no
    (truthy) label, and with the coded fields [state_province_id] and
    [country_id] deleted. *)
From S2P Require Import Prelude JsString JsObject QueryAssembler.

Local Open Scope string_scope.

Module ReferenceResolver.
Import QueryAssembler.

Definition nl : string := String "010" "".

(** The two template literals of lines 220-227, sent through [query]. *)
Definition state_query : list string :=
  [nl ++ "      SELECT id, name" ++ nl ++ "      FROM civicrm_state_province" ++ nl ++ "    "].
Definition country_query : list string :=
  [nl ++ "      SELECT id, iso_code" ++ nl ++ "      FROM civicrm_country" ++ nl ++ "    "].

(** [rows.forEach(r => lookup[r.id] = r[field])]: a later row with the
    same id overwrites an earlier one. *)
Definition row_key (r : jsobj) : string := js_to_string (prop r "id").

Definition build_lookup (field : string) (rows : list jsobj) : jsobj :=
  fold_left (fun acc r => dict_set (row_key r) (prop r field) acc) rows [].

(** [lookup[code] || null] *)
Definition resolve_code (lookup : jsobj) (code : jsval) : jsval :=
  let v := prop lookup (js_to_string code) in
  if truthy v then v else JNull.

(** Lines 241-249: [Object.assign({}, row, {state_province, country})],
    then the two coded fields are deleted. *)
Definition resolve_row (states countries : jsobj) (row : jsobj) : jsobj :=
  let sp := resolve_code states (prop row "state_province_id") in
  let co := resolve_code countries (prop row "country_id") in
  dict_delete "country_id"
    (dict_delete "state_province_id"
       (dict_set "country" co (dict_set "state_province" sp row))).

Definition resolve (db : source_db) (result : list jsobj) : res (list jsobj) :=
  st ← db (query_text state_query);
  co ← db (query_text country_query);
  let states := build_lookup "name" st in
  let countries := build_lookup "iso_code" co in
  Ok (map (resolve_row states countries) result).

(** ** Properties *)
Section ResolverProperties.

Lemma build_lookup_go field rows (acc : jsobj) k :
  dict_get k (fold_left (fun acc r => dict_set (row_key r) (prop r field) acc) rows acc)
  = match last (filter (fun r => row_key r = k) rows) with
    | Some r => Some (prop r field)
    | None => dict_get k acc
    end.
Proof.
  revert acc. induction rows as [|r rs IH]; intros acc; simpl; [done|].
  rewrite IH. destruct (decide (row_key r = k)) as [Hk|Hk].
  - rewrite filter_cons_True by done.
    destruct (last (filter _ rs)) eqn:E.
    + rewrite last_cons, E. done.
    + rewrite last_cons, E. rewrite <- Hk. apply dict_get_set_eq.
  - rewrite filter_cons_False by done.
    destruct (last (filter _ rs)); [done|]. by rewrite dict_get_set_ne.
Qed.

(** C23. A code is resolved through the last code-table row whose id
    renders as the code; no such row, or a falsy label, gives [null]:
    an unresolved code is never an error. *)
Lemma resolve_code_spec field rows code :
  resolve_code (build_lookup field rows) code
  = match last (filter (fun r => row_key r = js_to_string code) rows) with
    | Some r => if truthy (prop r field) then prop r field else JNull
    | None => JNull
    end.
Proof.
  unfold resolve_code, prop, build_lookup.
  rewrite !(build_lookup_go field rows [] (js_to_string code)).
  by destruct (last _).
Qed.

(** C22. A resolved row carries the two labels, has lost the two coded
    fields, and keeps every other field of the source row. *)
Lemma resolve_row_spec states countries row :
  dict_wf row ->
  let r := resolve_row states countries row in
  prop r "state_province" = resolve_code states (prop row "state_province_id")
  /\ prop r "country" = resolve_code countries (prop row "country_id")
  /\ prop r "state_province_id" = JUndefined /\ prop r "country_id" = JUndefined
  /\ (forall k, k ∉ ["state_province"; "country"; "state_province_id"; "country_id"] ->
        prop r k = prop row k)
  /\ dict_wf r.
Proof.
  intros Hwf r. unfold r, resolve_row, prop.
  assert (Hwf2 : dict_wf (dict_set "country" (resolve_code countries (prop row "country_id"))
                  (dict_set "state_province" (resolve_code states (prop row "state_province_id")) row)))
    by auto with parfit.
  split; [|split; [|split; [|split; [|split]]]].
  - rewrite !dict_get_delete_ne by done. rewrite dict_get_set_ne by done.
    by rewrite dict_get_set_eq.
  - rewrite !dict_get_delete_ne by done. by rewrite dict_get_set_eq.
  - rewrite dict_get_delete_ne, dict_get_delete_eq by done. done.
  - rewrite dict_get_delete_eq by auto with parfit. done.
  - intros k Hk. rewrite !not_elem_of_cons in Hk. destruct Hk as (H1 & H2 & H3 & H4 & _).
    by rewrite !dict_get_delete_ne, !dict_get_set_ne by done.
  - auto with parfit.
Qed.

End ResolverProperties.

(** ** Witnesses *)

Lemma resolve_row_spec_witness :
  let r := resolve_row [("1", JStr "Oxfordshire")] [("826", JStr "GB")]
             [("id", JNum 42); ("state_province_id", JNum 1); ("country_id", JNum 826)] in
  prop r "state_province" = resolve_code [("1", JStr "Oxfordshire")] (JNum 1)
  /\ prop r "country" = resolve_code [("826", JStr "GB")] (JNum 826)
  /\ prop r "state_province_id" = JUndefined /\ prop r "country_id" = JUndefined
  /\ (forall k, k ∉ ["state_province"; "country"; "state_province_id"; "country_id"] ->
        prop r k = prop [("id", JNum 42); ("state_province_id", JNum 1); ("country_id", JNum 826)] k)
  /\ dict_wf r.
Proof. apply resolve_row_spec. apply (bool_decide_unpack _). vm_compute. exact I. Defined.

End ReferenceResolver.
