(* ===== verification/Libraries.v ===== *)
(** * The libraries export/index.js calls: JSON, md5, moment

    These are third-party code, not part of the repository. Each is an
    interface (a type class): the normaliser's theorems are proved for
    every instance, using only the laws stated here, which are facts of
    the libraries' documented behaviour. *)
From S2P Require Import Prelude JsString JsObject.

(** [JSON.parse] throws a [SyntaxError] on malformed text. *)
Class Json := {
  json_parse : string -> res jsval;
  json_stringify : jsval -> string;
}.

(** [md5] renders a digest as 32 hexadecimal digits. *)
Class Md5 := {
  md5 : string -> string;
  md5_length : forall s, String.length (md5 s) = 32;
}.

(** The instants JavaScript dates can hold: at most 8.64e15 ms from the
    epoch either way. *)
Definition valid_time (t : Z) : Prop := (-8640000000000000 <= t <= 8640000000000000)%Z.

(** [moment]: a moment is valid or not; [toISOString] renders a valid
    moment and yields [null] for an invalid one. [moment()] and
    [moment(undefined)] are the current instant; [moment(n)] for a number
    [n] is the instant [n] ms after the epoch ([None] is NaN);
    [m.add(x)] with no unit adds [x] milliseconds, and an [undefined]
    duration is zero. *)
Class Moment := {
  moment : Type;
  moment_value : jsval -> moment;
  moment_now : moment;
  moment_ms : option Z -> moment;
  moment_format : string -> string -> moment;
  moment_valid : moment -> bool;
  moment_iso : moment -> option string;
  moment_add : moment -> jsval -> moment;
  moment_add_years : moment -> Z -> moment;
  moment_subtract_days : moment -> Z -> moment;

  moment_valid_iso : forall m, moment_valid m = true <-> is_Some (moment_iso m);
  moment_add_undefined : forall m, moment_add m JUndefined = m;
  moment_null : moment_valid (moment_value JNull) = false;
  moment_nan : moment_iso (moment_ms None) = None;
  moment_ms_valid : forall t, valid_time t -> is_Some (moment_iso (moment_ms (Some t)));
  moment_ms_range : forall t, is_Some (moment_iso (moment_ms (Some t))) -> valid_time t;
  moment_ms_inj : forall s t, valid_time s -> valid_time t ->
    moment_iso (moment_ms (Some s)) = moment_iso (moment_ms (Some t)) -> s = t;
}.

(** [moment(v)] as the code calls it on a property that may be missing:
    [moment(undefined)] is [moment()]. *)
Definition moment_of `{Moment} (v : jsval) : moment :=
  match v with JUndefined => moment_now | _ => moment_value v end.

(** [m.toISOString()] as a JavaScript value. *)
Definition iso_value `{Moment} (m : moment) : jsval :=
  match moment_iso m with Some s => JStr s | None => JNull end.

(** ** Reference instances

    Small instances that satisfy the laws, used to run the model on
    concrete rows: a JSON reader that knows a fixed set of documents, a
    digest that pads or cuts its input to 32 characters, and a clock
    whose moments are millisecond counts rendered in decimal. *)
Section Instances.

Fixpoint str_take (n : nat) (s : string) : string :=
  match n, s with
  | S n', String a s' => String a (str_take n' s')
  | _, _ => EmptyString
  end.

Lemma str_take_length n s : n <= String.length s -> String.length (str_take n s) = n.
Proof.
  revert s; induction n as [|n IH]; intros [|a s] Hn; simpl in *; try lia.
  f_equal. apply IH. lia.
Qed.

Definition pad32 : string := "00000000000000000000000000000000".

Lemma length_str_app (s t : string) : String.length (s ++ t) = String.length s + String.length t.
Proof. induction s; simpl; [done|]. by rewrite IHs. Qed.

Definition pad_digest (s : string) : string := str_take 32 (s ++ pad32).

Lemma pad_digest_length s : String.length (pad_digest s) = 32.
Proof. apply str_take_length. rewrite length_str_app. simpl. lia. Qed.

Definition md5_pad : Md5 := {| md5 := pad_digest; md5_length := pad_digest_length |}.

Definition table_json (docs : list (string * jsval)) : Json :=
  {| json_parse s := match dict_get s docs with
                     | Some v => Ok v
                     | None => Throw (SyntaxError "Unexpected token")
                     end;
     json_stringify v := js_to_string v |}.

Definition clip (t : Z) : option Z :=
  if bool_decide (valid_time t) then Some t else None.

Definition ms_add (m : option Z) (v : jsval) : option Z :=
  match v with
  | JUndefined => m
  | _ => match m, js_to_number v with
         | Some t, Some n => clip (t + n)
         | _, _ => None
         end
  end.

Definition ms_of (o : option Z) : option Z := match o with Some t => clip t | None => None end.

Lemma ms_valid_iso (m : option Z) :
  bool_decide (is_Some m) = true <-> is_Some (option_map js_number_to_string m).
Proof. rewrite bool_decide_eq_true. destruct m; simpl; split; intros; eauto; by destruct H. Qed.

Lemma ms_add_undefined m : ms_add m JUndefined = m.
Proof. reflexivity. Qed.

Lemma ms_nan : option_map js_number_to_string (ms_of None) = None.
Proof. reflexivity. Qed.

Lemma ms_valid t : valid_time t -> is_Some (option_map js_number_to_string (ms_of (Some t))).
Proof. intros Ht. unfold ms_of, clip. rewrite bool_decide_eq_true_2 by done. by eexists. Qed.

Lemma ms_range t : is_Some (option_map js_number_to_string (ms_of (Some t))) -> valid_time t.
Proof. unfold ms_of, clip. case_bool_decide; [done|]. by intros []. Qed.

Lemma ms_inj s t : valid_time s -> valid_time t ->
  option_map js_number_to_string (ms_of (Some s))
  = option_map js_number_to_string (ms_of (Some t)) -> s = t.
Proof.
  intros Hs Ht. unfold ms_of, clip. rewrite !bool_decide_eq_true_2 by done. simpl.
  intros [= E]. by apply js_number_to_string_inj.
Qed.

Definition ms_clock : Moment := {|
  moment := option Z;
  moment_value v := match v with
                    | JNull => None
                    | _ => match js_to_number v with Some t => clip t | None => None end
                    end;
  moment_now := Some 0%Z;
  moment_ms := ms_of;
  moment_format s f := None;
  moment_valid m := bool_decide (is_Some m);
  moment_iso m := option_map js_number_to_string m;
  moment_add := ms_add;
  moment_add_years m n := option_map (fun t => t + n * 31536000000)%Z m;
  moment_subtract_days m n := option_map (fun t => t - n * 86400000)%Z m;
  moment_valid_iso := ms_valid_iso;
  moment_add_undefined := ms_add_undefined;
  moment_null := eq_refl;
  moment_nan := ms_nan;
  moment_ms_valid := ms_valid;
  moment_ms_range := ms_range;
  moment_ms_inj := ms_inj;
|}.

End Instances.
