(* ===== verification/Normalizer.v ===== *)
(** * The dashboard normaliser (export/index.js, lines 252-427)

    The last stage of [execute] walks the resolved rows once. For each
    contact it nulls its working arrays, normalises nine date fields,
    and, when the contact carries dashboard data, parses it, copies five
    ledger-level scalars onto the contact, and splits the three logs into
    the run-wide [donations], [reportedIncome] and [recurringDonations]
    collections, registering charity names, currency codes and donation
    hashes in run-wide lists as it goes. A duplicate donation hash, a
    ledger that does not parse, or a value of the wrong shape throws and
    aborts the run. *)
From stdpp Require Import sorting.
From S2P Require Import Prelude JsString JsObject Libraries.

Local Open Scope string_scope.

Module Normalizer.

(** The run-wide collections of lines 254-262. [charityMergeCandidates]
    and [unknownCharities] are never filled. *)
Record acc : Type := mkAcc {
  contacts : list jsobj;
  donations : list jsobj;
  reportedIncome : list jsobj;
  recurringDonations : list jsobj;
  charities : list string;
  donationCurrencyCodes : list jsval;
  donationHashes : list string;
}.

Definition acc0 : acc := mkAcc [] [] [] [] [] [] [].

(** The object [execute] resolves to (lines 417-426). *)
Record export_data : Type := mkExport {
  out_contacts : list jsobj;
  out_donations : list jsobj;
  out_recurringDonations : list jsobj;
  out_reportedIncome : list jsobj;
  out_charities : list jsobj;
  out_charityMergeCandidates : list jsobj;
  out_donationCurrencyCodes : list jsobj;
}.

Section Normalize.
Context `{Json} `{Md5} `{Moment}.

(** ** Dates (lines 273-290) *)
Definition date_fields : list string :=
  ["birth_date"; "dates__joining_date"; "dates__left_date_former_members_";
   "dates__end_date_try_out_givers_"; "dates__start_date_trying_giving_";
   "outreach__date_started"; "outreach__date_finished"; "outreach__next_contact_date";
   "legacydata__date_old_pledge_form_submitted"].

Definition normalize_date (contact : jsobj) (field : string) : jsobj :=
  let m := moment_of (prop contact field) in
  if moment_valid m then dict_set field (iso_value m) contact
  else dict_set field JNull contact.

(** ** Shared helpers *)

(** [v && v.length > 0] *)
Definition has_entries (v : jsval) : res bool :=
  if truthy v then
    l ← js_get v "length";
    Ok (match js_to_number l with Some n => (0 <? n)%Z | None => false end)
  else Ok false.

(** [v.forEach]: only arrays have it. *)
Definition for_each_items (v : jsval) : res (list jsval) :=
  match v with
  | JArr xs => Ok xs
  | _ => Throw (TypeError "forEach is not a function")
  end.

(** [contact.k = contact.k || []; contact.k.push(x)] *)
Definition push_prop (contact : jsobj) (k : string) (x : jsval) : jsobj :=
  match prop contact k with
  | JArr xs => dict_set k (JArr (xs ++ [x])%list) contact
  | _ => dict_set k (JArr [x]) contact
  end.

(** [contact.id + '-' + md5(JSON.stringify(donation))] (line 321) *)
Definition donation_hash (contact : jsobj) (donation : jsval) : string :=
  js_to_string (prop contact "id") ++ "-" ++ md5 (json_stringify donation).

(** [(+donation[0] * 1000) + c] *)
Definition donation_ms (d0 : jsval) (c : Z) : option Z :=
  option_map (fun n => n * 1000 + c)%Z (js_to_number d0).

(** ** One point donation (lines 310-337) *)
Definition donation_step (contact : jsobj) (st : jsobj * acc * Z) (donation : jsval)
  : res (jsobj * acc * Z) :=
  let '(c_obj, a, c) := st in
  let c := (c + 1)%Z in
  d1 ← js_get donation "1";
  charityName ← js_trim_value d1;
  let chs := push_unique charityName (charities a) in
  code ← js_get donation "2";
  let codes := js_push_unique code (donationCurrencyCodes a) in
  let hash := donation_hash contact donation in
  if decide (hash ∈ donationHashes a) then Throw (Error (hash ++ " is not a unique hash"))
  else
    d0 ← js_get donation "0";
    d3 ← js_get donation "3";
    let d := [("donation_contact_id", prop contact "id");
              ("donation_timestamp", iso_value (moment_ms (donation_ms d0 c)));
              ("donation_target", JStr charityName);
              ("donation_currency", code);
              ("donation_amount", d3)] in
    Ok (push_prop c_obj "donations" (JObj d),
        mkAcc (contacts a) (donations a ++ [d])%list (reportedIncome a)
              (recurringDonations a) chs codes (donationHashes a ++ [hash])%list,
        c).

(** ** One year of reported income (lines 341-369) *)

(** [dashboardData.yearstartmonth + 1], as the string the join sees. *)
Definition plus_one_string (v : jsval) : string :=
  match v with
  | JNum n => js_number_to_string (n + 1)
  | JStr s => s ++ "1"
  | JNull => "1"
  | JBool b => if b then "2" else "1"
  | JUndefined => "NaN"
  | JArr _ | JObj _ => js_to_string v ++ "1"
  end.

(** Lines 348-355. *)
Definition pledge_percentage (contact : jsobj) : jsval :=
  let p := prop contact "pledgedamounts__pledge_percentage" in
  if truthy p then p
  else if js_strict_eq (prop contact "membershipstatus__giving_what_we_can_member") (JNum 1)
  then JNum 10 else JNum 0.

Definition income_step (dashboard income_log : jsval) (st : jsobj * acc) (year : string)
  : res (jsobj * acc) :=
  let '(contact, a) := st in
  ysm ← js_get dashboard "yearstartmonth";
  ysd ← js_get dashboard "yearstartdate";
  let m := moment_format (js_join_values "-" [JStr year; JStr (plus_one_string ysm); ysd])
             "YYYY-M-D" in
  let m := moment_add m (prop contact "contact_id") in
  let startDate := iso_value m in
  let endDate := iso_value (moment_subtract_days (moment_add_years m 1) 1) in
  let pp := pledge_percentage contact in
  income ← js_get income_log year;
  i0 ← js_get income "0";
  i1 ← js_get income "1";
  let ri := [("income_contact_id", prop contact "id");
             ("income_start_date", startDate);
             ("income_end_date", endDate);
             ("income_currency", i0);
             ("income_amount", i1);
             ("income_pledge_percentage", pp)] in
  Ok (push_prop contact "reportedIncome" (JObj ri),
      mkAcc (contacts a) (donations a) (reportedIncome a ++ [ri])%list (recurringDonations a)
            (charities a) (donationCurrencyCodes a) (donationHashes a)).

(** ** One recurring donation (lines 373-391) *)
Definition recurring_step (st : jsobj * acc) (donation : jsval) : res (jsobj * acc) :=
  let '(contact, a) := st in
  d4 ← js_get donation "4";
  charityName ← js_trim_value d4;
  let chs := push_unique charityName (charities a) in
  d0 ← js_get donation "0"; d1 ← js_get donation "1"; d2 ← js_get donation "2";
  d3 ← js_get donation "3"; d5 ← js_get donation "5"; d6 ← js_get donation "6";
  let rd := [("recurring_donation_contact_id", prop contact "id");
             ("recurring_donation_start_timestamp",
                iso_value (moment_ms (option_map (fun n => n * 1000)%Z (js_to_number d0))));
             ("recurring_donation_end_timestamp", d1);
             ("recurring_donation_frequency_unit", d2);
             ("recurring_donation_frequency", d3);
             ("recurring_donation_target", JStr charityName);
             ("recurring_donation_currency", d5);
             ("recurring_donation_amount", d6)] in
  Ok (push_prop contact "recurringDonations" (JObj rd),
      mkAcc (contacts a) (donations a) (reportedIncome a) (recurringDonations a ++ [rd])%list
            chs (donationCurrencyCodes a) (donationHashes a)).

(** ** A contact's dashboard (lines 294-392) *)
Definition ledger_scalars : list (string * string) :=
  [("donations__defaultcurrency", "defaultcurrency");
   ("donations__yearstartdate", "yearstartdate");
   ("donations__yearstartmonth", "yearstartmonth");
   ("donations__lastupdated", "lastupdated");
   ("donations__public", "public")].

Definition copy_scalar (dashboard : jsval) (contact : jsobj) (kf : string * string)
  : res jsobj :=
  v ← js_get dashboard kf.2; Ok (dict_set kf.1 v contact).

Definition process_ledger (raw : jsval) (contact : jsobj) (a : acc) : res (jsobj * acc) :=
  text ← js_trim_value raw;
  dashboard ← json_parse text;
  contact ← res_foldM (copy_scalar dashboard) contact ledger_scalars;
  (* point donations *)
  dv ← js_get dashboard "donations";
  go ← has_entries dv;
  '(contact, a) ← (if (go : bool) then
                     xs ← for_each_items dv;
                     '(contact, a, _) ← res_foldM (donation_step contact) (contact, a, 0%Z) xs;
                     Ok (contact, a)
                   else Ok (contact, a));
  (* reported income *)
  iv ← js_get dashboard "income";
  '(contact, a) ← (if truthy iv then
                     years ← js_object_keys iv;
                     res_foldM (income_step dashboard iv) (contact, a) years
                   else Ok (contact, a));
  (* recurring donations *)
  rv ← js_get dashboard "recurringdonations";
  go ← has_entries rv;
  if (go : bool) then
    xs ← for_each_items rv;
    res_foldM recurring_step (contact, a) xs
  else Ok (contact, a).

(** [dashboardData && dashboardData !== 'No data'] *)
Definition has_dashboard (raw : jsval) : bool :=
  truthy raw && negb (js_strict_eq raw (JStr "No data")).

(** ** One contact (lines 269-399) *)
Definition normalize_contact (a : acc) (row : jsobj) : res acc :=
  let contact := dict_set "reportedIncome" JNull
                   (dict_set "recurringDonations" JNull (dict_set "donations" JNull row)) in
  let contact := fold_left normalize_date date_fields contact in
  let raw := prop contact "donations__dashboard_data" in
  '(contact, a) ← (if has_dashboard raw then process_ledger raw contact a
                   else Ok (contact, a));
  let contact := dict_delete "reportedIncome" (dict_delete "recurringDonations"
                   (dict_delete "donations" (dict_delete "donations__dashboard_data" contact))) in
  Ok (mkAcc (contacts a ++ [contact])%list (donations a) (reportedIncome a)
            (recurringDonations a) (charities a) (donationCurrencyCodes a) (donationHashes a)).

(** ** [Array.prototype.sort] with the default comparator: [undefined]
    last, the others by their string forms, code unit by code unit. *)
Definition sort_le (x y : jsval) : Prop :=
  match x, y with
  | JUndefined, _ => y = JUndefined
  | _, JUndefined => True
  | _, _ => String.le (js_to_string x) (js_to_string y)
  end.

#[export] Instance sort_le_dec : RelDecision sort_le.
Proof.
  intros [] []; unfold sort_le; try apply _;
    try (left; exact I); try (right; discriminate); try (left; reflexivity).
Defined.

Definition js_default_sort (l : list jsval) : list jsval := merge_sort sort_le l.

(** ** The whole stage (lines 252-427) *)
Definition finish (a : acc) : export_data :=
  mkExport (contacts a) (donations a) (recurringDonations a) (reportedIncome a)
    (map (fun c => [("charity_name", JStr c); ("charity_type", JStr "Unknown")]) (charities a))
    []
    (map (fun c => [("currency_code", c)]) (js_default_sort (donationCurrencyCodes a))).

Definition normalize (rows : list jsobj) : res export_data :=
  a ← res_foldM normalize_contact acc0 rows;
  Ok (finish a).

End Normalize.

(** ** Properties *)
Section NormalizerProperties.
Context `{Json} `{Md5} `{Moment}.

(** C2. A ledger entry [[t, name, currency, amount, ...]] with a fresh
    hash appends exactly one donation record: its timestamp is the
    instant [t*1000 + (counter+1)] (the counter is incremented before
    use and returned incremented), its target is the trimmed name, its
    contact id, currency and amount are the contact's and the entry's;
    the trimmed name is registered as a charity, the hash is recorded,
    and the contacts, income and recurring lists are untouched. *)
Lemma donation_step_spec contact c_obj a c t name code amt rest :
  let donation := JArr (JNum t :: JStr name :: code :: amt :: rest) in
  donation_hash contact donation ∉ donationHashes a ->
  exists a' r,
    donation_step contact (c_obj, a, c) donation
      = Ok (push_prop c_obj "donations" (JObj r), a', (c + 1)%Z)
    /\ donations a' = (donations a ++ [r])%list
    /\ prop r "donation_contact_id" = prop contact "id"
    /\ prop r "donation_timestamp" = iso_value (moment_ms (Some (t * 1000 + (c + 1))%Z))
    /\ prop r "donation_target" = JStr (js_trim name)
    /\ prop r "donation_currency" = code
    /\ prop r "donation_amount" = amt
    /\ js_trim name ∈ charities a'
    /\ donationHashes a' = (donationHashes a ++ [donation_hash contact donation])%list
    /\ contacts a' = contacts a /\ reportedIncome a' = reportedIncome a
    /\ recurringDonations a' = recurringDonations a.
Proof.
  intros donation Hfresh. eexists _, _. unfold donation_step. simpl.
  rewrite decide_False by done. split; [reflexivity|].
  do 6 (split; [reflexivity|]). split; [apply push_unique_elem; by left|].
  repeat split.
Qed.

(** C3. An entry whose hash was already recorded anywhere in the run
    aborts it with [Error(hash + ' is not a unique hash')]. *)
Lemma donation_step_duplicate contact c_obj a c d0 name code amt rest :
  let donation := JArr (d0 :: JStr name :: code :: amt :: rest) in
  donation_hash contact donation ∈ donationHashes a ->
  donation_step contact (c_obj, a, c) donation
  = Throw (Error (donation_hash contact donation ++ " is not a unique hash")).
Proof. intros donation Hdup. unfold donation_step. simpl. by rewrite decide_True. Qed.

(** The hash ends with ['-'] and a 32-character digest, so it determines
    the rendered contact id and the digest. *)
Lemma donation_hash_inj c1 c2 d1 d2 :
  donation_hash c1 d1 = donation_hash c2 d2 ->
  js_to_string (prop c1 "id") = js_to_string (prop c2 "id")
  /\ md5 (json_stringify d1) = md5 (json_stringify d2).
Proof.
  unfold donation_hash. intros Hh.
  apply str_app_inv_len in Hh as [Hid Hm]; [|by rewrite !length_str_app, !md5_length].
  split; [done|]. by injection Hm.
Qed.

(** C5. Two contacts with different numeric ids never produce the same
    donation hash, whatever their ledger entries: the contact id is part
    of the hashed key. *)
Lemma donation_hash_distinct_ids c1 c2 d1 d2 i1 i2 :
  prop c1 "id" = JNum i1 -> prop c2 "id" = JNum i2 -> i1 <> i2 ->
  donation_hash c1 d1 <> donation_hash c2 d2.
Proof.
  intros Hi1 Hi2 Hne Hh. apply donation_hash_inj in Hh as [Hid _].
  rewrite Hi1, Hi2 in Hid. by apply Hne, js_number_to_string_inj.
Qed.

(** *** The run-wide registries

    Every donation and recurring donation names a registered charity,
    charity names and donation hashes are never repeated, and there is
    one recorded hash per point donation. *)
Definition targets_registered (field : string) (ds : list jsobj) (chs : list string) : Prop :=
  Forall (fun d => exists n, prop d field = JStr n /\ n ∈ chs) ds.

Definition acc_inv (a : acc) : Prop :=
  NoDup (charities a) /\ NoDup (donationHashes a)
  /\ length (donationHashes a) = length (donations a)
  /\ targets_registered "donation_target" (donations a) (charities a)
  /\ targets_registered "recurring_donation_target" (recurringDonations a) (charities a).

Lemma targets_registered_push f ds chs x :
  targets_registered f ds chs -> targets_registered f ds (push_unique x chs).
Proof.
  intros HF. eapply Forall_impl; [exact HF|]. intros d (n & Hn & Hin). exists n.
  split; [done|]. apply push_unique_elem. by right.
Qed.

Lemma targets_registered_snoc f ds chs d n :
  targets_registered f ds chs -> prop d f = JStr n -> n ∈ chs ->
  targets_registered f (ds ++ [d])%list chs.
Proof. intros Hds Hd Hn. apply Forall_app. split; [done|]. constructor; [by exists n|constructor]. Qed.

#[local] Hint Resolve targets_registered_push : parfit.

Lemma donation_step_inv contact c_obj a c x c_obj' a' c' :
  acc_inv a -> donation_step contact (c_obj, a, c) x = Ok (c_obj', a', c') -> acc_inv a'.
Proof.
  intros (Hch & Hh & Hlen & Hd & Hr) Hstep. unfold donation_step in Hstep.
  res_inv.
  repeat split; simpl; auto with parfit.
  - apply NoDup_app. split; [done|]. split; [|apply NoDup_singleton].
    by intros h ? ->%list_elem_of_singleton.
  - rewrite !length_app. simpl. lia.
  - eapply targets_registered_snoc; [auto with parfit|reflexivity|].
    apply push_unique_elem. by left.
Qed.

Lemma income_step_inv dashboard iv contact a year contact' a' :
  acc_inv a -> income_step dashboard iv (contact, a) year = Ok (contact', a') -> acc_inv a'.
Proof. intros Ha Hstep. unfold income_step in Hstep. res_inv. exact Ha. Qed.

Lemma recurring_step_inv contact a x contact' a' :
  acc_inv a -> recurring_step (contact, a) x = Ok (contact', a') -> acc_inv a'.
Proof.
  intros (Hch & Hh & Hlen & Hd & Hr) Hstep. unfold recurring_step in Hstep. res_inv.
  repeat split; simpl; auto with parfit.
  eapply targets_registered_snoc; [auto with parfit|reflexivity|].
  apply push_unique_elem. by left.
Qed.

Lemma donation_fold_inv contact c0 a z0 xs c' a' z :
  acc_inv a -> res_foldM (donation_step contact) (c0, a, z0) xs = Ok (c', a', z) -> acc_inv a'.
Proof.
  intros Ha Hf. refine (res_foldM_inv (fun st => acc_inv st.1.2) _ (c0, a, z0) _ _ _ Ha Hf).
  intros [[? ?] ?] ? [[? ?] ?]. apply donation_step_inv.
Qed.

Lemma income_fold_inv dashboard iv c0 a ys c' a' :
  acc_inv a -> res_foldM (income_step dashboard iv) (c0, a) ys = Ok (c', a') -> acc_inv a'.
Proof.
  intros Ha Hf. refine (res_foldM_inv (fun st => acc_inv st.2) _ (c0, a) _ _ _ Ha Hf).
  intros [? ?] ? [? ?]. apply income_step_inv.
Qed.

Lemma recurring_fold_inv c0 a xs c' a' :
  acc_inv a -> res_foldM recurring_step (c0, a) xs = Ok (c', a') -> acc_inv a'.
Proof.
  intros Ha Hf. refine (res_foldM_inv (fun st => acc_inv st.2) _ (c0, a) _ _ _ Ha Hf).
  intros [? ?] ? [? ?]. apply recurring_step_inv.
Qed.

#[local] Hint Resolve donation_fold_inv income_fold_inv recurring_fold_inv : parfit.

Lemma process_ledger_inv raw contact a contact' a' :
  acc_inv a -> process_ledger raw contact a = Ok (contact', a') -> acc_inv a'.
Proof.
  intros Ha Hp. unfold process_ledger in Hp. res_inv.
  (* each of the three loops preserves the invariant *)
  all: eauto 6 with parfit.
Qed.

Lemma normalize_contact_inv a row a' :
  acc_inv a -> normalize_contact a row = Ok a' -> acc_inv a'.
Proof.
  intros Ha Hn. unfold normalize_contact in Hn. res_inv.
  all: try match goal with
    | H : process_ledger _ _ _ = Ok _ |- _ =>
        apply process_ledger_inv in H; [clear Ha; rename H into Ha | exact Ha]
    end.
  (* the contact list is not part of the invariant *)
  all: destruct Ha as (? & ? & ? & ? & ?); by repeat split.
Qed.

Lemma acc_inv_acc0 : acc_inv acc0.
Proof. repeat split; try constructor. Qed.

(** C1. After a successful run the charity list has no duplicate name,
    and every point donation and every recurring donation targets a
    charity of the list. *)
Theorem normalize_registries rows out :
  normalize rows = Ok out ->
  let names := map (fun c => prop c "charity_name") (out_charities out) in
  NoDup names
  /\ Forall (fun d => prop d "donation_target" ∈ names) (out_donations out)
  /\ Forall (fun d => prop d "recurring_donation_target" ∈ names) (out_recurringDonations out).
Proof.
  unfold normalize. intros Hn. res_inv.
  apply (res_foldM_inv acc_inv) in E; [|apply normalize_contact_inv|apply acc_inv_acc0].
  destruct E as (Hch & _ & _ & Hd & Hr). unfold finish. simpl.
  rewrite map_map. simpl. split; [|split].
  - apply NoDup_fmap_2; [intros x y [=]; done|done].
  - eapply Forall_impl; [exact Hd|]. intros d (n & -> & Hn).
    apply list_elem_of_In, in_map. by apply list_elem_of_In.
  - eapply Forall_impl; [exact Hr|]. intros d (n & -> & Hn).
    apply list_elem_of_In, in_map. by apply list_elem_of_In.
Qed.

(** *** Rows without dashboard data, and rows whose dashboard is corrupt *)

Lemma normalize_date_other contact f k : k <> f -> prop (normalize_date contact f) k = prop contact k.
Proof.
  intros Hk. unfold normalize_date, prop.
  destruct (moment_valid _); by rewrite dict_get_set_ne.
Qed.

Lemma normalize_dates_other contact k :
  k ∉ date_fields -> prop (fold_left normalize_date date_fields contact) k = prop contact k.
Proof.
  generalize date_fields contact. intros fs. induction fs as [|f fs IH]; intros c Hk; simpl; [done|].
  rewrite IH by (intros ?; apply Hk; by right). apply normalize_date_other.
  intros ->. apply Hk. by left.
Qed.

Lemma normalize_dates_wf contact : dict_wf contact -> dict_wf (fold_left normalize_date date_fields contact).
Proof.
  generalize date_fields contact. intros fs. induction fs as [|f fs IH]; intros c Hc; simpl; [done|].
  apply IH. unfold normalize_date. destruct (moment_valid _); auto with parfit.
Qed.

(** The contact as the loop sees it once its dates are normalised. *)
Definition prepared (row : jsobj) : jsobj :=
  fold_left normalize_date date_fields
    (dict_set "reportedIncome" JNull (dict_set "recurringDonations" JNull (dict_set "donations" JNull row))).

Lemma prepared_other row k :
  k ∉ (["reportedIncome"; "recurringDonations"; "donations"] ++ date_fields)%list ->
  prop (prepared row) k = prop row k.
Proof.
  intros Hk. unfold prepared. rewrite elem_of_app in Hk.
  rewrite normalize_dates_other by (intros ?; apply Hk; by right).
  unfold prop. rewrite !dict_get_set_ne; [done| |  |];
    intros ->; apply Hk; left; repeat (first [by left | right]).
Qed.

Lemma dashboard_key_prepared row :
  prop (prepared row) "donations__dashboard_data" = prop row "donations__dashboard_data".
Proof. apply prepared_other. decide_closed. Qed.

(** A row whose [normalize_contact] throws aborts the whole stage with
    that exception: nothing of the rows already processed survives. *)
Lemma normalize_abort pre r post a e :
  res_foldM normalize_contact acc0 pre = Ok a -> normalize_contact a r = Throw e ->
  normalize (pre ++ r :: post)%list = Throw e.
Proof.
  intros Hpre Hr. unfold normalize. rewrite res_foldM_app, Hpre. simpl. by rewrite Hr.
Qed.

(** C4. Dashboard text that [JSON.parse] rejects aborts the run with the
    parser's exception itself: no contact, donation or income record is
    produced, and the exception carries no contact id. *)
Theorem normalize_parse_error pre r post a raw e :
  res_foldM normalize_contact acc0 pre = Ok a ->
  prop r "donations__dashboard_data" = JStr raw -> has_dashboard (JStr raw) = true ->
  json_parse (js_trim raw) = Throw e ->
  normalize (pre ++ r :: post)%list = Throw e.
Proof.
  intros Hpre Hraw Hd Hp. apply (normalize_abort pre r post a e Hpre).
  unfold normalize_contact. fold (prepared r). rewrite dashboard_key_prepared, Hraw, Hd.
  unfold process_ledger. simpl. by rewrite Hp.
Qed.

(** C7. A row without dashboard data (missing, [null], empty or
    ['No data']) adds no donation, income or recurring record and
    registers nothing; it is appended to the contacts with the dashboard
    field removed and no ledger scalar set. *)
Theorem normalize_contact_no_ledger a row :
  dict_wf row -> has_dashboard (prop row "donations__dashboard_data") = false ->
  exists contact,
    normalize_contact a row
    = Ok (mkAcc (contacts a ++ [contact])%list (donations a) (reportedIncome a)
            (recurringDonations a) (charities a) (donationCurrencyCodes a) (donationHashes a))
    /\ prop contact "donations__dashboard_data" = JUndefined
    /\ Forall (fun kf => prop contact kf.1 = prop row kf.1) ledger_scalars.
Proof.
  intros Hwf Hno. unfold normalize_contact. fold (prepared row).
  rewrite dashboard_key_prepared, Hno. simpl. eexists. split; [reflexivity|].
  assert (Hpwf : dict_wf (prepared row)) by (apply normalize_dates_wf; auto with parfit).
  split.
  - unfold prop. rewrite !dict_get_delete_ne by done.
    rewrite dict_get_delete_eq by done. reflexivity.
  - apply Forall_forall. intros kf Hk. apply list_elem_of_In in Hk.
    simpl in Hk. intuition subst; simpl; unfold prop; rewrite !dict_get_delete_ne by done;
      fold (prop (prepared row)); apply prepared_other; decide_closed.
Qed.

(** *** Timestamps of one contact's point donations *)

Lemma donation_step_shape contact o a c x o' a' c' :
  donation_step contact (o, a, c) x = Ok (o', a', c') ->
  c' = (c + 1)%Z /\ exists d0 r, js_get x "0" = Ok d0 /\ donations a' = (donations a ++ [r])%list
    /\ prop r "donation_timestamp" = iso_value (moment_ms (donation_ms d0 (c + 1))).
Proof.
  intros Hs. unfold donation_step in Hs. res_inv.
  split; [done|]. eexists _, _. split; [done|]. split; [reflexivity|]. reflexivity.
Qed.

Lemma donation_fold_spec contact o a c xs o' a' c' :
  res_foldM (donation_step contact) (o, a, c) xs = Ok (o', a', c') ->
  exists L, donations a' = (donations a ++ L)%list /\ length L = length xs
  /\ forall k r, L !! k = Some r -> exists x d0, xs !! k = Some x /\ js_get x "0" = Ok d0
       /\ prop r "donation_timestamp" = iso_value (moment_ms (donation_ms d0 (c + Z.of_nat k + 1))).
Proof.
  revert o a c. induction xs as [|x xs IH]; intros o a c Hf; cbn [res_foldM] in Hf.
  - injection Hf as <- <- <-. exists []. by rewrite app_nil_r.
  - destruct (donation_step contact (o, a, c) x) as [[[o1 a1] c1]|] eqn:Hs; res_step Hf;
      [|discriminate].
    apply donation_step_shape in Hs as (-> & d0 & r & Hd0 & Ha1 & Hr).
    destruct (IH _ _ _ Hf) as (L & HL & Hlen & Hts).
    exists (r :: L). split; [by rewrite HL, Ha1, <- app_assoc|]. split; [simpl; lia|].
    intros [|k] r' Hk; simpl in Hk.
    + injection Hk as <-. exists x, d0. split; [done|]. split; [done|]. by rewrite Z.add_0_r.
    + destruct (Hts k r' Hk) as (x' & d0' & ? & ? & Hr'). exists x', d0'.
      split; [done|]. split; [done|]. rewrite Hr'. do 4 f_equal. lia.
Qed.

(** C6. Within one contact's ledger of at most 1000 point donations,
    two different entries never get the same (non-null) timestamp: the
    per-contact counter separates entries that share an epoch second. *)
Theorem ledger_timestamps_distinct contact o a xs o' a' c' k1 k2 r1 r2 s :
  res_foldM (donation_step contact) (o, a, 0%Z) xs = Ok (o', a', c') ->
  length xs <= 1000 -> k1 <> k2 ->
  donations a' !! (length (donations a) + k1) = Some r1 ->
  donations a' !! (length (donations a) + k2) = Some r2 ->
  prop r1 "donation_timestamp" = JStr s ->
  prop r2 "donation_timestamp" <> JStr s.
Proof.
  intros Hf Hlen Hk Hr1 Hr2 Hs1 Hs2.
  destruct (donation_fold_spec _ _ _ _ _ _ _ _ Hf) as (L & HL & HLlen & Hts).
  rewrite HL, lookup_app_r, Nat.add_comm, Nat.add_sub in Hr1, Hr2 by lia.
  destruct (Hts _ _ Hr1) as (x1 & d1 & Hx1 & _ & Ht1).
  destruct (Hts _ _ Hr2) as (x2 & d2 & Hx2 & _ & Ht2).
  apply lookup_lt_Some in Hx1, Hx2.
  rewrite Ht1 in Hs1. rewrite Ht2 in Hs2. unfold iso_value, donation_ms in *.
  destruct (js_to_number d1) as [t1|], (js_to_number d2) as [t2|]; simpl in *;
    try (rewrite moment_nan in *; discriminate).
  do 2 match goal with
  | H : match moment_iso ?m with Some _ => _ | None => _ end = JStr _ |- _ =>
      let E := fresh "E" in destruct (moment_iso m) eqn:E; [injection H as ->|discriminate]
  end.
  match goal with E1 : moment_iso ?m1 = Some ?v, E2 : moment_iso ?m2 = Some ?v |- _ =>
    assert (Hv1 := moment_ms_range _ (ex_intro _ _ E1));
    assert (Hv2 := moment_ms_range _ (ex_intro _ _ E2));
    rewrite <- E2 in E1; apply moment_ms_inj in E1; [|done|done]
  end.
  lia.
Qed.

(** *** Dates, income periods and pledge percentages *)

(** C10. A date column the row does not have is set to the current
    instant, not to [null]: [moment(undefined)] is [moment()]. A column
    that is present but [null] becomes [null]. *)
Theorem normalize_date_missing contact f :
  (prop contact f = JUndefined -> moment_valid moment_now = true ->
     prop (normalize_date contact f) f = iso_value moment_now)
  /\ (prop contact f = JNull -> prop (normalize_date contact f) f = JNull).
Proof.
  unfold normalize_date. split.
  - intros Hf Hnow. rewrite Hf. simpl. rewrite Hnow.
    unfold prop. by rewrite dict_get_set_eq.
  - intros Hf. rewrite Hf. simpl. rewrite moment_null.
    unfold prop. by rewrite dict_get_set_eq.
Qed.

Lemma income_step_shape dashboard iv contact a year contact' a' :
  income_step dashboard iv (contact, a) year = Ok (contact', a') ->
  exists ysm ysd ri,
    js_get dashboard "yearstartmonth" = Ok ysm /\ js_get dashboard "yearstartdate" = Ok ysd
    /\ reportedIncome a' = (reportedIncome a ++ [ri])%list
    /\ prop ri "income_start_date"
       = iso_value (moment_add (moment_format (js_join_values "-" [JStr year;
             JStr (plus_one_string ysm); ysd]) "YYYY-M-D") (prop contact "contact_id"))
    /\ prop ri "income_pledge_percentage" = pledge_percentage contact.
Proof. intros Hs. unfold income_step in Hs. res_inv. by eexists _, _, _. Qed.

(** C8. The income period start does not depend on the contact: for
    contacts without a [contact_id] field (no row of the main query has
    one) the [m.add(contact.contact_id)] offset is zero, so two contacts
    with the same fiscal-year anchor get the same start instant for the
    same year (the spec requires them to differ). *)
Theorem income_start_same_anchor d1 d2 iv1 iv2 c1 c2 a1 a2 year c1' c2' a1' a2' r1 r2 :
  prop c1 "contact_id" = JUndefined -> prop c2 "contact_id" = JUndefined ->
  js_get d1 "yearstartmonth" = js_get d2 "yearstartmonth" ->
  js_get d1 "yearstartdate" = js_get d2 "yearstartdate" ->
  income_step d1 iv1 (c1, a1) year = Ok (c1', a1') ->
  income_step d2 iv2 (c2, a2) year = Ok (c2', a2') ->
  last (reportedIncome a1') = Some r1 -> last (reportedIncome a2') = Some r2 ->
  prop r1 "income_start_date" = prop r2 "income_start_date".
Proof.
  intros Hc1 Hc2 Hm Hd Hs1 Hs2 Hr1 Hr2.
  destruct (income_step_shape _ _ _ _ _ _ _ Hs1) as (m1 & y1 & ri1 & Hm1 & Hy1 & Ha1 & Hst1 & _).
  destruct (income_step_shape _ _ _ _ _ _ _ Hs2) as (m2 & y2 & ri2 & Hm2 & Hy2 & Ha2 & Hst2 & _).
  rewrite Ha1, last_snoc in Hr1. rewrite Ha2, last_snoc in Hr2.
  injection Hr1 as <-. injection Hr2 as <-.
  rewrite Hst1, Hst2, Hc1, Hc2, !moment_add_undefined.
  rewrite Hm1, Hm2 in Hm. rewrite Hy1, Hy2 in Hd. by injection Hm as ->; injection Hd as ->.
Qed.

(** C9. Without a configured pledge percentage, an income record gets
    the default 10 only when the membership flag is the number [1]; a
    member whose flag is the string ["1"] (which is what the query's
    filter compares against) gets 0. *)
Theorem income_pledge_default dashboard iv contact a year contact' a' ri :
  truthy (prop contact "pledgedamounts__pledge_percentage") = false ->
  income_step dashboard iv (contact, a) year = Ok (contact', a') ->
  last (reportedIncome a') = Some ri ->
  (prop contact "membershipstatus__giving_what_we_can_member" = JNum 1 ->
     prop ri "income_pledge_percentage" = JNum 10)
  /\ (prop contact "membershipstatus__giving_what_we_can_member" = JStr "1" ->
     prop ri "income_pledge_percentage" = JNum 0).
Proof.
  intros Hp Hs Hr.
  destruct (income_step_shape _ _ _ _ _ _ _ Hs) as (? & ? & ri' & _ & _ & Ha & _ & Hpp).
  rewrite Ha, last_snoc in Hr. injection Hr as <-. rewrite Hpp. unfold pledge_percentage.
  rewrite Hp. split; intros Hf; by rewrite Hf.
Qed.

End NormalizerProperties.

(** ** Witnesses: the contact of the spec's scenario (id 42, one Oxfam
    donation of 50 USD at epoch second 1000000000), run with the
    reference library instances. *)
Section Witnesses.
#[local] Existing Instance md5_pad.
#[local] Existing Instance ms_clock.

Definition oxfam_entry : jsval := JArr [JNum 1000000000; JStr " Oxfam "; JStr "USD"; JNum 50].

Definition ledger42 : jsval :=
  JObj [("donations", JArr [oxfam_entry]); ("income", JObj []); ("recurringdonations", JArr [])].

Definition row42 : jsobj := [("id", JNum 42); ("donations__dashboard_data", JStr "L42")].

#[local] Instance sample_json : Json := table_json [("L42", ledger42)].

Lemma donation_step_spec_witness :
  donation_hash row42 oxfam_entry ∉ donationHashes acc0 /\
  exists a' r,
    donation_step row42 (row42, acc0, 0%Z) oxfam_entry
      = Ok (push_prop row42 "donations" (JObj r), a', 1%Z)
    /\ donations a' = (donations acc0 ++ [r])%list
    /\ prop r "donation_contact_id" = prop row42 "id"
    /\ prop r "donation_timestamp" = iso_value (moment_ms (Some (1000000000 * 1000 + (0 + 1))%Z))
    /\ prop r "donation_target" = JStr (js_trim " Oxfam ")
    /\ prop r "donation_currency" = JStr "USD"
    /\ prop r "donation_amount" = JNum 50
    /\ js_trim " Oxfam " ∈ charities a'
    /\ donationHashes a' = (donationHashes acc0 ++ [donation_hash row42 oxfam_entry])%list
    /\ contacts a' = contacts acc0 /\ reportedIncome a' = reportedIncome acc0
    /\ recurringDonations a' = recurringDonations acc0.
Proof.
  split; [apply not_elem_of_nil|].
  apply (donation_step_spec row42 row42 acc0 0 1000000000 " Oxfam " (JStr "USD") (JNum 50) []).
  apply not_elem_of_nil.
Defined.

Lemma donation_step_duplicate_witness :
  donation_step row42 (row42, mkAcc [] [] [] [] [] [] [donation_hash row42 oxfam_entry], 0%Z)
    oxfam_entry
  = Throw (Error (donation_hash row42 oxfam_entry ++ " is not a unique hash")).
Proof. apply donation_step_duplicate. by left. Defined.

Lemma donation_hash_distinct_ids_witness :
  donation_hash row42 oxfam_entry <> donation_hash [("id", JNum 43)] oxfam_entry.
Proof. apply (donation_hash_distinct_ids _ _ _ _ 42 43); reflexivity || discriminate. Defined.

Lemma normalize_registries_witness :
  exists out, normalize [row42] = Ok out /\
  let names := map (fun c => prop c "charity_name") (out_charities out) in
  NoDup names
  /\ Forall (fun d => prop d "donation_target" ∈ names) (out_donations out)
  /\ Forall (fun d => prop d "recurring_donation_target" ∈ names) (out_recurringDonations out).
Proof. eexists. split; [vm_compute; reflexivity|]. apply (normalize_registries [row42]). vm_compute. reflexivity. Defined.

Lemma normalize_parse_error_witness :
  normalize ([row42] ++ [("id", JNum 7); ("donations__dashboard_data", JStr "{oops")] :: [])%list
  = Throw (SyntaxError "Unexpected token").
Proof. eapply normalize_parse_error; reflexivity. Defined.

Lemma normalize_contact_no_ledger_witness :
  exists contact,
    normalize_contact acc0 [("id", JNum 7); ("donations__dashboard_data", JStr "No data")]
    = Ok (mkAcc (contacts acc0 ++ [contact])%list (donations acc0) (reportedIncome acc0)
            (recurringDonations acc0) (charities acc0) (donationCurrencyCodes acc0)
            (donationHashes acc0))
    /\ prop contact "donations__dashboard_data" = JUndefined
    /\ Forall (fun kf => prop contact kf.1
                          = prop [("id", JNum 7); ("donations__dashboard_data", JStr "No data")] kf.1)
         ledger_scalars.
Proof.
  apply normalize_contact_no_ledger; [|reflexivity].
  apply (bool_decide_unpack _). vm_compute. exact I.
Defined.

Definition twin_entries : list jsval :=
  [JArr [JNum 1000000000; JStr "AMF"; JStr "USD"; JNum 10];
   JArr [JNum 1000000000; JStr "AMF"; JStr "USD"; JNum 20]].

Lemma ledger_timestamps_distinct_witness :
  exists o a c r1 r2,
    res_foldM (donation_step row42) (row42, acc0, 0%Z) twin_entries = Ok (o, a, c)
    /\ donations a !! 0 = Some r1 /\ donations a !! 1 = Some r2
    /\ prop r1 "donation_timestamp" = JStr "1000000000001"
    /\ prop r2 "donation_timestamp" <> JStr "1000000000001".
Proof.
  do 5 eexists. split; [reflexivity|]. split; [reflexivity|]. split; [reflexivity|].
  split; [reflexivity|].
  eapply (ledger_timestamps_distinct row42 row42 acc0 twin_entries _ _ _ 0 1);
    try reflexivity; simpl; lia.
Defined.

Lemma normalize_date_missing_witness :
  prop (normalize_date [("id", JNum 42)] "birth_date") "birth_date" = iso_value moment_now
  /\ prop (normalize_date [("id", JNum 42); ("birth_date", JNull)] "birth_date") "birth_date" = JNull.
Proof.
  split.
  - apply (normalize_date_missing [("id", JNum 42)] "birth_date"); reflexivity.
  - apply (normalize_date_missing [("id", JNum 42); ("birth_date", JNull)] "birth_date").
    reflexivity.
Defined.

Definition anchored : jsval :=
  JObj [("yearstartmonth", JNum 0); ("yearstartdate", JNum 1);
        ("income", JObj [("2020", JArr [JStr "GBP"; JNum 30000])])].

Definition income_log : jsval := JObj [("2020", JArr [JStr "GBP"; JNum 30000])].

Lemma income_start_same_anchor_witness :
  exists c1' c2' a1' a2' r1 r2,
    income_step anchored income_log ([("id", JNum 1)], acc0) "2020" = Ok (c1', a1')
    /\ income_step anchored income_log ([("id", JNum 2)], acc0) "2020" = Ok (c2', a2')
    /\ last (reportedIncome a1') = Some r1 /\ last (reportedIncome a2') = Some r2
    /\ prop r1 "income_start_date" = prop r2 "income_start_date".
Proof.
  do 6 eexists. do 4 (split; [reflexivity|]).
  eapply (income_start_same_anchor anchored anchored income_log income_log
            [("id", JNum 1)] [("id", JNum 2)] acc0 acc0 "2020"); reflexivity.
Defined.

Definition member_flag_string : jsobj :=
  [("id", JNum 5); ("membershipstatus__giving_what_we_can_member", JStr "1")].

Lemma income_pledge_default_witness :
  exists c' a' ri,
    income_step anchored income_log (member_flag_string, acc0) "2020" = Ok (c', a')
    /\ last (reportedIncome a') = Some ri
    /\ prop ri "income_pledge_percentage" = JNum 0.
Proof.
  do 3 eexists. split; [reflexivity|]. split; [reflexivity|].
  eapply (income_pledge_default anchored income_log member_flag_string acc0 "2020");
    reflexivity.
Defined.

End Witnesses.

End Normalizer.
